(** * Water-Tank-Management: the Arduino sketch, the consumption tracker
    and the dashboard's local storage, embedded and verified. *)

From Stdlib Require Import ZArith QArith Qabs Lia Lqa Bool Ascii String.
From Stdlib Require Import Floats.SpecFloat.
From stdpp Require Import gmap strings list.

Close Scope Q_scope.
Local Open Scope Z_scope.

(** ** IEEE-754 binary32, the [float] of the AVR toolchain

  On the 8-bit AVR boards the sketch targets, [float] and [double] are
  both the 32-bit format; the operations round to nearest, ties to even. *)
Module Float32.

Definition prec : Z := 24.
Definition emax : Z := 128.

(** Integer to float conversion, as the C casts and returns do. *)
Definition of_Z (z : Z) : spec_float := binary_normalize prec emax z 0 false.

Definition div : spec_float -> spec_float -> spec_float := SFdiv prec emax.
Definition mul : spec_float -> spec_float -> spec_float := SFmul prec emax.
Definition leb : spec_float -> spec_float -> bool := SFleb.

(** The exact rational a finite float stands for. *)
Definition to_Q (f : spec_float) : option Q :=
  match f with
  | S754_zero _ => Some (Qmake 0 1)
  | S754_finite s m e =>
      Some (if 0 <=? e
            then inject_Z (cond_Zopp s (Z.pos m) * 2 ^ e)
            else Qmake (cond_Zopp s (Z.pos m)) (Z.to_pos (2 ^ (- e))))
  | _ => None
  end.

(** Is [f] a finite float at most [eps] away from the rational [q]? *)
Definition close_to (f : spec_float) (q eps : Q) : bool :=
  match to_Q f with
  | Some x => Qle_bool (Qabs (x - q)) eps
  | None => false
  end.

(** Where [double] is the 64-bit format: a product taken in double
    precision, and the narrowing that a [float] return applies to it. *)
Definition double_of_Z (z : Z) : spec_float := binary_normalize 53 1024 z 0 false.
Definition double_mul : spec_float -> spec_float -> spec_float := SFmul 53 1024.
Definition of_double (f : spec_float) : spec_float :=
  match f with
  | S754_finite s m e => binary_normalize prec emax (cond_Zopp s (Z.pos m)) e s
  | _ => f
  end.

End Float32.

(** ** The sketch (the Arduino program in [run_automation.sh]) *)
Module Sketch.

Definition TRIGGER_PIN : Z := 9.
Definition ECHO_PIN : Z := 10.
Definition LED_PIN : Z := 7.
Definition RELAY_PIN : Z := 5.
Definition BUZZER_PIN : Z := 6.

Definition MIN_DISTANCE : Z := 4.
Definition MAX_DISTANCE : Z := 11.

Definition RELAY_ACTIVE_HIGH : bool := true.

(** [unsigned int] is 16 bits wide on the AVR. *)
Definition UINT_WIDTH : Z := 16.
Definition to_uint (z : Z) : Z := z mod 2 ^ UINT_WIDTH.

Inductive level := LOW | HIGH.

(** The board: what the output pins were last driven to, and the global
    [prev_pump_state]. *)
Record board := Board {
  pins : gmap Z level;
  prev_pump_state : Z
}.

(** What a run of the sketch does to the outside world. *)
Inductive event :=
| PinModeOutput (pin : Z)
| DigitalWrite (pin : Z) (v : level)
| PrintFloat (f : spec_float)
| PrintInt (z : Z)
| PrintStr (s : string).

(** State passing with a log of events. *)
Definition M (A : Type) : Type := board -> A * board * list event.

#[export] Instance M_ret : MRet M := fun A (a : A) b => (a, b, []).
#[export] Instance M_bind : MBind M := fun A B (k : A -> M B) (m : M A) b =>
  let '(a, b1, l1) := m b in
  let '(r, b2, l2) := k a b1 in
  (r, b2, l1 ++ l2).

Definition state_of {A} (r : A * board * list event) : board := snd (fst r).
Definition events_of {A} (r : A * board * list event) : list event := snd r.
Definition value_of {A} (r : A * board * list event) : A := fst (fst r).

Definition digitalWrite (pin : Z) (v : level) : M unit :=
  fun b => (tt, Board (<[pin := v]> (pins b)) (prev_pump_state b),
            [DigitalWrite pin v]).

Definition set_prev_pump_state (z : Z) : M unit :=
  fun b => (tt, Board (pins b) z, []).

Definition serial_print (e : event) : M unit := fun b => (tt, b, [e]).

(** [pinMode (pin, OUTPUT)]: the pin drives what its port bit holds, low
    after a reset. *)
Definition pinMode_output (pin : Z) : M unit :=
  fun b => (tt, Board (<[pin := default LOW (pins b !! pin)]> (pins b))
                      (prev_pump_state b),
            [PinModeOutput pin]).

(** The board after a reset: no pin driven, [prev_pump_state] at its
    initial value. *)
Definition power_up : board := Board ∅ 0.

Definition setup : M unit :=
  pinMode_output LED_PIN ;;
  pinMode_output RELAY_PIN ;;
  pinMode_output BUZZER_PIN ;;
  digitalWrite RELAY_PIN (if RELAY_ACTIVE_HIGH then LOW else HIGH).

Definition controlPump (cmd : Ascii.ascii) : M unit :=
  if Ascii.eqb cmd "0"%char then
    digitalWrite RELAY_PIN (if RELAY_ACTIVE_HIGH then LOW else HIGH) ;;
    set_prev_pump_state 0
  else if Ascii.eqb cmd "1"%char then
    digitalWrite RELAY_PIN (if RELAY_ACTIVE_HIGH then HIGH else LOW) ;;
    digitalWrite LED_PIN HIGH ;;
    set_prev_pump_state 1
  else mret tt.

(** [distance] is what [sonar.ping_cm ()] returned: 0 stands for no echo. *)
Definition getLevelPercent (distance : Z) : spec_float :=
  if distance =? 0 then Float32.of_Z 0
  else if distance <=? MIN_DISTANCE then Float32.of_Z 100
  else if distance >=? MAX_DISTANCE then Float32.of_Z 0
  else
    Float32.mul
      (Float32.div (Float32.of_Z (to_uint (MAX_DISTANCE - distance)))
                   (Float32.of_Z (MAX_DISTANCE - MIN_DISTANCE)))
      (Float32.of_Z 100).

(** [getLevelPercent] on a board whose [double] is 64 bits wide: the
    product with [100.0] is taken in double precision and narrowed by the
    return. *)
Definition getLevelPercent_double64 (distance : Z) : spec_float :=
  if distance =? 0 then Float32.of_Z 0
  else if distance <=? MIN_DISTANCE then Float32.of_Z 100
  else if distance >=? MAX_DISTANCE then Float32.of_Z 0
  else
    Float32.of_double
      (Float32.double_mul
         (Float32.div (Float32.of_Z (to_uint (MAX_DISTANCE - distance)))
                      (Float32.of_Z (MAX_DISTANCE - MIN_DISTANCE)))
         (Float32.double_of_Z 100)).

(** The interpolation of [getLevelPercent] in exact arithmetic. *)
Definition exact_percent (distance : Z) : Q :=
  (inject_Z (MAX_DISTANCE - distance)
   / inject_Z (MAX_DISTANCE - MIN_DISTANCE) * inject_Z 100)%Q.

(** One pass of [loop]: the ping result and the byte waiting on the serial
    line, if there is one. *)
Record tick := Tick {
  ping_cm : Z;
  serial_rx : option Ascii.ascii
}.

Definition loop (t : tick) : M unit :=
  fun b =>
    let level := getLevelPercent (ping_cm t) in
    (serial_print (PrintFloat level) ;;
     serial_print (PrintStr ",") ;;
     serial_print (PrintInt (prev_pump_state b)) ;;
     serial_print (PrintStr (String "010"%char EmptyString)) ;;
     match serial_rx t with
     | Some command => controlPump command
     | None => mret tt
     end) b.

(** [delay (500)] closes every pass. *)
Definition LOOP_DELAY_MS : Z := 500.

(** The sketch run over a list of ticks. *)
Fixpoint run (ts : list tick) : M unit :=
  match ts with
  | [] => mret tt
  | t :: ts' => loop t ;; run ts'
  end.

Definition boot_and_run (ts : list tick) : unit * board * list event :=
  (setup ;; run ts) power_up.

(** The pump runs when the relay pin is driven to its active level. *)
Definition pump_on (b : board) : bool :=
  match pins b !! RELAY_PIN with
  | Some HIGH => RELAY_ACTIVE_HIGH
  | Some LOW => negb RELAY_ACTIVE_HIGH
  | None => false
  end.

(** The level a pass reports on the serial line. *)
Definition reported_level (t : tick) : spec_float := getLevelPercent (ping_cm t).

(** The levels reported over a run, one per pass. *)
Definition reported_levels (ts : list tick) : list spec_float :=
  map reported_level ts.

(** The pump's state after each pass of a run started from [b]. *)
Fixpoint pump_trace (ts : list tick) (b : board) : list bool :=
  match ts with
  | [] => []
  | t :: ts' =>
      let b' := state_of (loop t b) in
      pump_on b' :: pump_trace ts' b'
  end.

(** The board once [setup] has run. *)
Definition booted : board := state_of (setup power_up).

(** A pass without an echo hands on the level of the pass before it. *)
Definition repeats_previous_on_dropout (ts : list tick) : Prop :=
  forall (i : nat) (before t : tick),
    ts !! i = Some before -> ts !! S i = Some t ->
    ping_cm t = 0 -> reported_level t = reported_level before.

(** The pin writes among the events of a run, in order. *)
Fixpoint digital_writes (es : list event) : list (Z * level) :=
  match es with
  | [] => []
  | DigitalWrite pin v :: es' => (pin, v) :: digital_writes es'
  | _ :: es' => digital_writes es'
  end.

(** [prev_pump_state] tells what the relay was last driven to. *)
Definition consistent (b : board) : Prop :=
  prev_pump_state b = (if pump_on b then 1 else 0).

(** The pump command a byte stands for: '0' is off, '1' is on, any other
    byte is none. *)
Definition command_of (c : Ascii.ascii) : option bool :=
  if Ascii.eqb c "0"%char then Some false
  else if Ascii.eqb c "1"%char then Some true
  else None.

Definition tick_command (t : tick) : option bool :=
  match serial_rx t with
  | Some c => command_of c
  | None => None
  end.

(** The last pump command among the passes of a run, if there is one. *)
Fixpoint last_command (ts : list tick) : option bool :=
  match ts with
  | [] => None
  | t :: ts' =>
      match last_command ts' with
      | Some c => Some c
      | None => tick_command t
      end
  end.

(** Did some pass of the run read the command '1'? *)
Definition switched_on (ts : list tick) : bool :=
  existsb (fun t => match tick_command t with Some true => true | _ => false end) ts.

(** The integers printed over a run, in order: the pump states sent up the
    serial line. *)
Fixpoint printed_states (es : list event) : list Z :=
  match es with
  | [] => []
  | PrintInt z :: es' => z :: printed_states es'
  | _ :: es' => printed_states es'
  end.

End Sketch.

(** ** The controller the specification describes, as a yardstick

  The sketch has no thresholds and no timers of its own; the definitions
  below phrase the specified rules so that the sketch can be measured
  against them. *)
Module Controller.

Record ControllerConfig := {
  on_threshold_percent : spec_float;
  off_threshold_percent : spec_float;
  hard_off_percent : spec_float;
  min_run_ms : Z;
  min_off_ms : Z
}.

(** The transition rule as specified: from the pump's state, the level
    [L] and the time spent in the state, the state after the tick. *)
Definition spec_next_state (cfg : ControllerConfig) (on : bool)
    (L : spec_float) (in_state_ms : Z) : bool :=
  if on then
    negb ((Float32.leb (off_threshold_percent cfg) L
           || Float32.leb (hard_off_percent cfg) L)
          && (min_run_ms cfg <=? in_state_ms))
  else
    Float32.leb L (on_threshold_percent cfg)
    && (min_off_ms cfg <=? in_state_ms).

(** Does the sketch follow [spec_next_state] on every pass of a run?
    [in_state_ms] is the time the pump has been in its state when the run
    starts; every pass adds [LOOP_DELAY_MS]. *)
Fixpoint follows_spec (cfg : ControllerConfig) (ts : list Sketch.tick)
    (b : Sketch.board) (in_state_ms : Z) : bool :=
  match ts with
  | [] => true
  | t :: ts' =>
      let b' := Sketch.state_of (Sketch.loop t b) in
      let was := Sketch.pump_on b in
      let now := Sketch.pump_on b' in
      Bool.eqb now (spec_next_state cfg was (Sketch.reported_level t) in_state_ms)
      && follows_spec cfg ts' b'
           (if Bool.eqb was now then in_state_ms + Sketch.LOOP_DELAY_MS
            else Sketch.LOOP_DELAY_MS)
  end.

(** Does a run switch the pump off before [min_run_ms] in the On state
    with the level below [hard_off_percent]? *)
Fixpoint early_off (cfg : ControllerConfig) (ts : list Sketch.tick)
    (b : Sketch.board) (in_state_ms : Z) : bool :=
  match ts with
  | [] => false
  | t :: ts' =>
      let b' := Sketch.state_of (Sketch.loop t b) in
      let was := Sketch.pump_on b in
      let now := Sketch.pump_on b' in
      (was && negb now
       && (in_state_ms <? min_run_ms cfg)
       && negb (Float32.leb (hard_off_percent cfg) (Sketch.reported_level t)))
      || early_off cfg ts' b'
           (if Bool.eqb was now then in_state_ms + Sketch.LOOP_DELAY_MS
            else Sketch.LOOP_DELAY_MS)
  end.

(** The figures of the specification's no-chatter scenario, with the
    overfill cutoff at 95 percent and a one-minute minimum run. *)
Definition example_config : ControllerConfig := {|
  on_threshold_percent := Float32.of_Z 20;
  off_threshold_percent := Float32.of_Z 60;
  hard_off_percent := Float32.of_Z 95;
  min_run_ms := 60000;
  min_off_ms := 30000
|}.

End Controller.

(** ** Consumption tracker and predictor *)
Module Tracker.

Local Open Scope Q_scope.

Inductive PumpState := Off | On.

(** Modelled from the spec: the consumption tracker ([main.py]) is not
    among the sources. On a tick with the pump Off the level lost since
    the previous tick counts as consumption when it is positive and no
    leak scan is classified as a leak; a negative delta is clamped to
    zero, and nothing is counted while the pump is On. *)
Definition consumption_delta (pump : PumpState) (leak_classified : bool)
    (previous_smoothed_percent current_smoothed_percent : Q) : Q :=
  match pump with
  | On => 0
  | Off =>
      let delta := previous_smoothed_percent - current_smoothed_percent in
      if Qle_bool delta 0 then 0
      else if leak_classified then 0
      else delta
  end.

(** Modelled from the spec: [TankCapacity], the optional liters at 100
    percent; without it consumption stays in percent. *)
Definition to_equivalent (capacity : option Q) (percent : Q) : Q :=
  match capacity with
  | Some liters_at_100 => percent * liters_at_100 / 100
  | None => percent
  end.

(** Modelled from the spec: the [ConsumptionLedger], a map from calendar
    day to the amount consumed and a rolling history of at most seven
    finalized days, newest first. *)
Record ConsumptionLedger := {
  day_totals : gmap Z Q;
  current_day : Z;
  history : list Q
}.

Definition day_total (l : ConsumptionLedger) (day : Z) : Q :=
  default 0 (day_totals l !! day).

(** Modelled from the spec: at day rollover the day's entry is finalized
    and pushed into the seven-entry history, the oldest entry leaving. *)
Definition rollover (day : Z) (l : ConsumptionLedger) : ConsumptionLedger :=
  if decide (day = current_day l) then l
  else {| day_totals := day_totals l;
          current_day := day;
          history := take 7 (day_total l (current_day l) :: history l) |}.

(** Modelled from the spec: what one tick does to the ledger. *)
Definition record_tick (capacity : option Q) (day : Z) (pump : PumpState)
    (leak_classified : bool) (previous current : Q)
    (l : ConsumptionLedger) : ConsumptionLedger :=
  let l' := rollover day l in
  let amount :=
    to_equivalent capacity (consumption_delta pump leak_classified previous current) in
  {| day_totals := <[day := day_total l' day + amount]> (day_totals l');
     current_day := current_day l';
     history := history l' |}.

(** Modelled from the spec: one level sample per tick, with the pump's
    state and whether a leak scan is classified as a leak at that tick. *)
Record observation := {
  obs_day : Z;
  obs_pump : PumpState;
  obs_leak : bool;
  obs_level : Q
}.

(** Modelled from the spec: the tracker keeps the ledger and the smoothed
    level of the previous tick; the first tick has no delta. *)
Record tracker := {
  ledger : ConsumptionLedger;
  previous_smoothed_percent : option Q
}.

Definition track (capacity : option Q) (st : tracker) (o : observation)
    : tracker :=
  {| ledger :=
       match previous_smoothed_percent st with
       | Some previous =>
           record_tick capacity (obs_day o) (obs_pump o) (obs_leak o)
             previous (obs_level o) (ledger st)
       | None => rollover (obs_day o) (ledger st)
       end;
     previous_smoothed_percent := Some (obs_level o) |}.

Definition track_all (capacity : option Q) (st : tracker)
    (os : list observation) : tracker :=
  foldl (track capacity) st os.

(** A configured capacity is not negative. *)
Definition capacity_ok (capacity : option Q) : Prop :=
  match capacity with
  | Some liters_at_100 => 0 <= liters_at_100
  | None => True
  end.

Definition sum (xs : list Q) : Q := foldr Qplus 0 xs.

Definition average (xs : list Q) : Q :=
  sum xs / inject_Z (Z.of_nat (length xs)).

(** Modelled from the spec: the predictor of [main.py], not among the
    sources. The days remaining are the current level divided by the
    average of the last min(7, available) days; there is no figure
    without a day of history or with a zero average. *)
Definition predict (current_level_equivalent : Q) (history : list Q)
    : option Q :=
  let recent := take (Nat.min 7 (length history)) history in
  if Nat.ltb (length history) 1 then None
  else if Qeq_bool (average recent) 0 then None
  else Some (current_level_equivalent / average recent).

End Tracker.


(** ** JavaScript values, as far as the dashboard stores them *)
Module JS.

(** A value [JSON.parse] can produce. An object lists its own properties
    in insertion order; numbers are IEEE doubles. *)
#[warnings="-register-all"]
Inductive json :=
| JNull
| JBool (b : bool)
| JNum (f : spec_float)
| JStr (s : string)
| JArr (items : list json)
| JObj (fields : list (string * json)).

(** The result of reading a property: a [TypeError], [undefined], or a
    value. *)
Inductive access :=
| Throws
| Undefined
| Value (v : json).

Fixpoint own_property (fields : list (string * json)) (key : string)
    : access :=
  match fields with
  | [] => Undefined
  | (k, v) :: rest => if String.eqb k key then Value v else own_property rest key
  end.

(** [v.key] for a key that no prototype defines: reading from [null]
    throws, primitives and arrays have no such property. *)
Definition get (v : json) (key : string) : access :=
  match v with
  | JNull => Throws
  | JObj fields => own_property fields key
  | _ => Undefined
  end.

(** JavaScript truthiness: [!x] is its negation. *)
Definition truthy (v : json) : bool :=
  match v with
  | JNull => false
  | JBool b => b
  | JNum (S754_zero _) => false
  | JNum S754_nan => false
  | JNum _ => true
  | JStr s => negb (String.eqb s EmptyString)
  | JArr _ => true
  | JObj _ => true
  end.

(** [!a]; [None] when reading the property threw. *)
Definition negation (a : access) : option bool :=
  match a with
  | Throws => None
  | Undefined => Some true
  | Value v => Some (negb (truthy v))
  end.

End JS.

(** ** [lib/api.ts]: the stored credentials *)
Module Api.
Import JS.

Record BasicCreds := {
  username : string;
  password : string
}.

Definition CREDS_KEY : string := "water-tank-creds".

(** The object a [BasicCreds] is at run time. *)
Definition creds_object (creds : BasicCreds) : json :=
  JObj [("username"%string, JStr (username creds));
        ("password"%string, JStr (password creds))].

Section WithJSON.

(** [JSON.stringify] and [JSON.parse] of the JavaScript engine; [None]
    is a thrown [SyntaxError]. *)
Variable JSON_stringify : json -> string.
Variable JSON_parse : string -> option json.

(** [window] tells whether the code runs in a browser; [ls] is
    [localStorage]. *)
Definition persistCredentials (window : bool) (creds : BasicCreds)
    (ls : gmap string string) : gmap string string :=
  if negb window then ls
  else <[CREDS_KEY := JSON_stringify (creds_object creds)]> ls.

Definition clearCredentials (window : bool) (ls : gmap string string)
    : gmap string string :=
  if negb window then ls else delete CREDS_KEY ls.

(** [None] is [null]; what is returned is the parsed value itself. *)
Definition loadCredentials (window : bool) (ls : gmap string string)
    : option json :=
  if negb window then None
  else
    match ls !! CREDS_KEY with
    | None => None
    | Some raw =>
        if String.eqb raw EmptyString then None
        else
          match JSON_parse raw with
          | None => None
          | Some parsed =>
              match JS.negation (get parsed "username") with
              | None => None
              | Some true => None
              | Some false =>
                  match JS.negation (get parsed "password") with
                  | None => None
                  | Some true => None
                  | Some false => Some parsed
                  end
              end
          end
    end.

End WithJSON.

(** A value is usable as credentials when both properties are there and
    neither is empty (falsy). *)
Definition nonempty_property (v : json) (key : string) : Prop :=
  exists x, get v key = Value x /\ truthy x = true /\ x <> JStr EmptyString.

(** Does the text contain a colon? *)
Fixpoint has_colon (s : string) : bool :=
  match s with
  | EmptyString => false
  | String c rest => Ascii.eqb c ":"%char || has_colon rest
  end.

Section WithBase64.

(** [encodeBase64], that is the platform's [btoa]. *)
Variable encodeBase64 : string -> string.

Definition basicAuthHeader (creds : BasicCreds) : string :=
  ("Basic " ++ encodeBase64 (username creds ++ ":" ++ password creds))%string.

End WithBase64.




End Api.

(** ** A codec for flat objects

  JSON restricted to what the credentials need: an object whose values
  are strings, written without blanks, with the double quote and the
  backslash escaped. It stands in for the engine's codec where a concrete
  one is needed. *)
Module FlatJSON.
Import JS.

Definition dquote : Ascii.ascii := "034"%char.
Definition backslash : Ascii.ascii := "092"%char.

Fixpoint escape (s : string) : string :=
  match s with
  | EmptyString => EmptyString
  | String c rest =>
      if Ascii.eqb c dquote || Ascii.eqb c backslash
      then String backslash (String c (escape rest))
      else String c (escape rest)
  end.

Definition quote (s : string) : string :=
  String dquote (escape s ++ String dquote EmptyString).

Fixpoint stringify_fields (fields : list (string * json)) : string :=
  match fields with
  | [] => EmptyString
  | (k, v) :: rest =>
      let value := match v with JStr s => quote s | _ => "null"%string end in
      let here := (quote k ++ ":" ++ value)%string in
      match rest with
      | [] => here
      | _ => (here ++ "," ++ stringify_fields rest)%string
      end
  end.

Definition stringify (v : json) : string :=
  match v with
  | JObj fields => ("{" ++ stringify_fields fields ++ "}")%string
  | JStr s => quote s
  | _ => "null"%string
  end.

(** The characters after an opening quote, up to the closing one, and
    what follows it. *)
Fixpoint parse_chars (s : string) : option (string * string) :=
  match s with
  | EmptyString => None
  | String c rest =>
      if Ascii.eqb c dquote then Some (EmptyString, rest)
      else if Ascii.eqb c backslash then
        match rest with
        | String c' rest' =>
            if Ascii.eqb c' dquote || Ascii.eqb c' backslash then
              match parse_chars rest' with
              | Some (body, after) => Some (String c' body, after)
              | None => None
              end
            else None
        | EmptyString => None
        end
      else
        match parse_chars rest with
        | Some (body, after) => Some (String c body, after)
        | None => None
        end
  end.

Definition parse_quoted (s : string) : option (string * string) :=
  match s with
  | String c rest => if Ascii.eqb c dquote then parse_chars rest else None
  | EmptyString => None
  end.

Definition expect (c : Ascii.ascii) (s : string) : option string :=
  match s with
  | String c' rest => if Ascii.eqb c c' then Some rest else None
  | EmptyString => None
  end.

(** The fields after the opening brace; [fuel] bounds their number. *)
Fixpoint parse_fields (fuel : nat) (s : string)
    : option (list (string * json)) :=
  match fuel with
  | O => None
  | S fuel' =>
      match parse_quoted s with
      | None => None
      | Some (k, s1) =>
          match expect ":" s1 with
          | None => None
          | Some s2 =>
              match parse_quoted s2 with
              | None => None
              | Some (v, s3) =>
                  match s3 with
                  | String "}" EmptyString => Some [(k, JStr v)]
                  | String "," s4 =>
                      match parse_fields fuel' s4 with
                      | Some rest => Some ((k, JStr v) :: rest)
                      | None => None
                      end
                  | _ => None
                  end
              end
          end
      end
  end.

Definition parse (s : string) : option json :=
  match s with
  | String "{" (String "}" EmptyString) => Some (JObj [])
  | String "{" rest =>
      match parse_fields (String.length rest) rest with
      | Some fields => Some (JObj fields)
      | None => None
      end
  | _ => None
  end.

End FlatJSON.

(** ** [components/Issues.tsx]: the list of reported issues *)
Module Issues.
Import JS.

Definition LOCAL_STORAGE_KEY : string := "water_tank_issues".

Inductive Category := leak | pump | sensor | other.

Record Issue := {
  id : string;
  title : string;
  description : string;
  category : Category;
  timestamp : string;
  username : string;
  resolved : bool
}.

Definition category_name (c : Category) : string :=
  match c with
  | leak => "leak"
  | pump => "pump"
  | sensor => "sensor"
  | other => "other"
  end.

(** The object an [Issue] is at run time. *)
Definition issue_object (issue : Issue) : json :=
  JObj [("id"%string, JStr (id issue));
        ("title"%string, JStr (title issue));
        ("description"%string, JStr (description issue));
        ("category"%string, JStr (category_name (category issue)));
        ("timestamp"%string, JStr (timestamp issue));
        ("username"%string, JStr (username issue));
        ("resolved"%string, JBool (resolved issue))].

(** The [ViewIssues] component: its [issues] state and the browser's
    [localStorage]. *)
Record view := {
  issues : list Issue;
  localStorage : gmap string string
}.

Section WithJSON.

Variable JSON_stringify : json -> string.

Definition saveIssues (issues : list Issue) (ls : gmap string string)
    : gmap string string :=
  <[LOCAL_STORAGE_KEY := JSON_stringify (JArr (map issue_object issues))]> ls.

Definition toggleResolved (id' : string) (v : view) : view :=
  let updated :=
    map (fun issue =>
           if String.eqb (id issue) id'
           then {| id := id issue;
                   title := title issue;
                   description := description issue;
                   category := category issue;
                   timestamp := timestamp issue;
                   username := username issue;
                   resolved := negb (resolved issue) |}
           else issue)
        (issues v) in
  {| issues := updated; localStorage := saveIssues updated (localStorage v) |}.

Definition deleteIssue (id' : string) (v : view) : view :=
  let updated := filter (fun issue => id issue <> id') (issues v) in
  {| issues := updated; localStorage := saveIssues updated (localStorage v) |}.

End WithJSON.

(** The filter of the list: "all", "resolved" or "unresolved". *)
Inductive Filter := FilterAll | FilterResolved | FilterUnresolved.

Definition filteredIssues (filter : Filter) (issues : list Issue) : list Issue :=
  List.filter
    (fun issue =>
       match filter with
       | FilterResolved => resolved issue
       | FilterUnresolved => negb (resolved issue)
       | FilterAll => true
       end)
    issues.

(** The form of [ReportIssueBox]. *)
Record form := {
  form_title : string;
  form_description : string;
  form_category : Category;
  submitting : bool;
  success : bool
}.

Section WithEngine.

Variable JSON_stringify : json -> string.
Variable JSON_parse : string -> option json.
(** [String.prototype.trim]. *)
Variable trim : string -> string.

(** What is returned is the parsed value itself, whatever its shape. *)
Definition getIssues (window : bool) (ls : gmap string string) : json :=
  if negb window then JArr []
  else
    match ls !! LOCAL_STORAGE_KEY with
    | None => JArr []
    | Some stored =>
        if String.eqb stored EmptyString then JArr []
        else
          match JSON_parse stored with
          | Some v => v
          | None => JArr []
          end
    end.

(** [handleSubmit] of [ReportIssueBox], run in the browser; [uuid] and
    [now] are what [crypto.randomUUID ()] and [new Date ().toISOString ()]
    gave. The third component tells whether the handler threw: [unshift]
    exists on arrays only. *)
Definition handleSubmit (uuid now user : string) (f : form)
    (ls : gmap string string) : form * gmap string string * bool :=
  if String.eqb (trim (form_title f)) EmptyString then (f, ls, false)
  else
    let newIssue :=
      {| id := uuid;
         title := trim (form_title f);
         description := trim (form_description f);
         category := form_category f;
         timestamp := now;
         username := user;
         resolved := false |} in
    match getIssues true ls with
    | JArr items =>
        ({| form_title := EmptyString;
            form_description := EmptyString;
            form_category := other;
            submitting := false;
            success := true |},
         <[LOCAL_STORAGE_KEY :=
             JSON_stringify (JArr (issue_object newIssue :: items))]> ls,
         false)
    | _ =>
        ({| form_title := form_title f;
            form_description := form_description f;
            form_category := form_category f;
            submitting := true;
            success := success f |},
         ls, true)
    end.

End WithEngine.

End Issues.

(** ** The login card: the stored user type *)
Module LoginCard.

Inductive UserType := user | admin.

Definition USER_TYPE_STORAGE_KEY : string := "water_tank_user_type".

Definition user_type_name (t : UserType) : string :=
  match t with
  | user => "user"
  | admin => "admin"
  end.

Definition saveUserType (userType : UserType) (ls : gmap string string)
    : gmap string string :=
  <[USER_TYPE_STORAGE_KEY := user_type_name userType]> ls.

Definition loadUserType (window : bool) (ls : gmap string string) : UserType :=
  if negb window then user
  else
    match ls !! USER_TYPE_STORAGE_KEY with
    | Some stored =>
        if String.eqb stored "admin" then admin
        else if String.eqb stored "user" then user
        else user
    | None => user
    end.

Inductive Mode := login | register.

(** What [handleSubmit] ends up calling. *)
Inductive called :=
| Nothing
| OnRegister (username password : string) (userType : UserType)
| OnSubmit (username password : string) (userType : UserType).

(** [has_onRegister] tells whether the optional [onRegister] was given. *)
Definition handleSubmit (username password : string) (userType : UserType)
    (mode : Mode) (has_onRegister : bool) (ls : gmap string string)
    : called * gmap string string :=
  if String.eqb username EmptyString || String.eqb password EmptyString
  then (Nothing, ls)
  else
    let ls' := saveUserType userType ls in
    match mode with
    | register =>
        if has_onRegister then (OnRegister username password userType, ls')
        else (OnSubmit username password userType, ls')
    | login => (OnSubmit username password userType, ls')
    end.

Definition toggleMode (prev : Mode) : Mode :=
  match prev with
  | login => register
  | register => login
  end.

End LoginCard.

(** ** [app/page.tsx]: the page's session *)
Module Page.
Import JS Api.

Record DashboardState := {
  metrics : option json;
  history : json
}.

Definition initialState : DashboardState :=
  {| metrics := None; history := JArr [] |}.

(** What a rejected request throws: an [ApiError], another [Error], or a
    value that is no [Error]. *)
Inductive thrown :=
| ApiError (message : string) (status : Z)
| OtherError (message : string)
| NotAnError.

(** The state of [Home], with the browser's [localStorage]; [creds] holds
    the credentials object, [None] for [null]. *)
Record Home := {
  creds : option json;
  state : DashboardState;
  loading : bool;
  error : option string;
  localStorage : gmap string string
}.

Definition set_error (e : option string) (h : Home) : Home :=
  {| creds := creds h; state := state h; loading := loading h;
     error := e; localStorage := localStorage h |}.

Definition set_loading (l : bool) (h : Home) : Home :=
  {| creds := creds h; state := state h; loading := l;
     error := error h; localStorage := localStorage h |}.

Section WithJSON.

Variable JSON_stringify : json -> string.
Variable JSON_parse : string -> option json.

(** The effect run once after mounting. *)
Definition mount (h : Home) : Home :=
  {| creds := loadCredentials JSON_parse true (localStorage h);
     state := state h; loading := loading h; error := error h;
     localStorage := localStorage h |}.

Definition logout (h : Home) : Home :=
  {| creds := None;
     state := initialState;
     loading := loading h;
     error := None;
     localStorage := clearCredentials true (localStorage h) |}.

(** [fetched] is how the two requests settled together. *)
Definition refresh (currentCreds : option json) (showSpinner : bool)
    (fetched : thrown + json * json) (h : Home) : Home :=
  match currentCreds with
  | None => h
  | Some _ =>
      let h := set_error None h in
      let h := if showSpinner then set_loading true h else h in
      let h :=
        match fetched with
        | inr (m, hist) =>
            {| creds := creds h;
               state := {| metrics := Some m; history := hist |};
               loading := loading h; error := error h;
               localStorage := localStorage h |}
        | inl (ApiError message code) =>
            if code =? 401
            then set_error (Some "Session expired. Please sign in again."%string)
                           (logout h)
            else set_error (Some message) h
        | inl (OtherError message) => set_error (Some message) h
        | inl NotAnError => set_error (Some "Unable to refresh data"%string) h
        end in
      if showSpinner then set_loading false h else h
  end.

(** [logged_in] is how the login request settled, [None] for success. *)
Definition handleLogin (username password : string)
    (logged_in : option thrown) (fetched : thrown + json * json)
    (h : Home) : Home :=
  let h := set_error None (set_loading true h) in
  let h :=
    match logged_in with
    | None =>
        let nextCreds := {| Api.username := username; Api.password := password |} in
        let h :=
          {| creds := Some (creds_object nextCreds);
             state := state h; loading := loading h; error := error h;
             localStorage :=
               persistCredentials JSON_stringify true nextCreds (localStorage h) |} in
        refresh (Some (creds_object nextCreds)) false fetched h
    | Some (ApiError message _) => set_error (Some message) h
    | Some (OtherError message) => set_error (Some message) h
    | Some NotAnError => set_error (Some "Login failed"%string) h
    end in
  set_loading false h.

End WithJSON.

(** Is the failure a 401 from the API? *)
Definition is_unauthorized (e : thrown) : bool :=
  match e with
  | ApiError _ code => code =? 401
  | _ => false
  end.

(** The message of an error, [fallback] for what is no error. *)
Definition message_of (fallback : string) (e : thrown) : string :=
  match e with
  | ApiError message _ => message
  | OtherError message => message
  | NotAnError => fallback
  end.

End Page.


(** * Properties *)

(** ** The sketch *)
Section SketchFacts.
Import Sketch.

Lemma geb_false_lt (a b : Z) : (a >=? b) = false -> a < b.
Proof. rewrite Z.geb_leb. intros H. apply Z.leb_gt in H. exact H. Qed.

(** Between the two calibration marks there are six readings. *)
Lemma between_marks (d : Z) :
  MIN_DISTANCE < d < MAX_DISTANCE ->
  d = 5 \/ d = 6 \/ d = 7 \/ d = 8 \/ d = 9 \/ d = 10.
Proof. unfold MIN_DISTANCE, MAX_DISTANCE. lia. Qed.

Lemma getLevelPercent_full (d : Z) :
  d <> 0 -> d <= MIN_DISTANCE -> getLevelPercent d = Float32.of_Z 100.
Proof.
  intros Hnz Hle. unfold getLevelPercent.
  destruct (Z.eqb_spec d 0) as [->|_]; [contradiction|].
  destruct (Z.leb_spec d MIN_DISTANCE) as [_|Hgt]; [reflexivity|lia].
Qed.

Lemma getLevelPercent_empty (d : Z) :
  MAX_DISTANCE <= d -> getLevelPercent d = Float32.of_Z 0.
Proof.
  intros Hge. unfold getLevelPercent.
  destruct (Z.eqb_spec d 0) as [->|_]; [reflexivity|].
  destruct (Z.leb_spec d MIN_DISTANCE) as [Hle|_].
  - unfold MIN_DISTANCE, MAX_DISTANCE in *. lia.
  - rewrite Z.geb_leb. destruct (Z.leb_spec MAX_DISTANCE d); [reflexivity|lia].
Qed.

Lemma getLevelPercent_between (d : Z) :
  MIN_DISTANCE < d < MAX_DISTANCE ->
  getLevelPercent d =
  Float32.mul
    (Float32.div (Float32.of_Z (MAX_DISTANCE - d))
                 (Float32.of_Z (MAX_DISTANCE - MIN_DISTANCE)))
    (Float32.of_Z 100).
Proof.
  intros H. destruct (between_marks d H) as [->|[->|[->|[->|[->| ->]]]]];
    reflexivity.
Qed.

(** The three bands on sample readings: 57.142857... for 7 cm. *)
Example getLevelPercent_samples :
  map (fun d => Float32.to_Q (getLevelPercent d)) [0; 2; 4; 7; 11; 400]
  = [Some (Qmake 0 1); Some (Qmake 13107200 131072);
     Some (Qmake 13107200 131072); Some (Qmake 14979658 262144);
     Some (Qmake 0 1); Some (Qmake 0 1)].
Proof. reflexivity. Qed.

(** A short session: a full tank, the pump switched on, then off. *)
Example session_events :
  digital_writes
    (events_of (boot_and_run [Tick 4 (Some "1"%char); Tick 4 None;
                              Tick 4 (Some "0"%char)]))
  = [(RELAY_PIN, LOW); (RELAY_PIN, HIGH); (LED_PIN, HIGH); (RELAY_PIN, LOW)].
Proof. reflexivity. Qed.

(** The width of [double] makes no difference to the level. *)
Lemma getLevelPercent_double64_same (d : Z) :
  getLevelPercent_double64 d = getLevelPercent d.
Proof.
  unfold getLevelPercent_double64, getLevelPercent.
  destruct (d =? 0); [reflexivity|].
  destruct (Z.leb_spec d MIN_DISTANCE) as [_|Hgt]; [reflexivity|].
  destruct (d >=? MAX_DISTANCE) eqn:Hge; [reflexivity|].
  apply geb_false_lt in Hge.
  destruct (between_marks d (conj Hgt Hge)) as [->|[->|[->|[->|[->| ->]]]]];
    reflexivity.
Qed.

Lemma getLevelPercent_bounds (d : Z) :
  Float32.leb (Float32.of_Z 0) (getLevelPercent d) = true /\
  Float32.leb (getLevelPercent d) (Float32.of_Z 100) = true.
Proof.
  destruct (Z.eq_dec d 0) as [->|Hnz]; [split; reflexivity|].
  destruct (Z_le_gt_dec d MIN_DISTANCE) as [Hle|Hgt].
  { rewrite getLevelPercent_full by assumption. split; reflexivity. }
  destruct (Z_le_gt_dec MAX_DISTANCE d) as [Hge|Hlt].
  { rewrite getLevelPercent_empty by assumption. split; reflexivity. }
  assert (H : MIN_DISTANCE < d < MAX_DISTANCE) by lia.
  destruct (between_marks d H) as [->|[->|[->|[->|[->| ->]]]]];
    split; reflexivity.
Qed.

(** Sequencing: the state is threaded, the logs are appended. *)
Lemma bind_state {A B} (m : M A) (k : A -> M B) (b : board) :
  state_of ((m ≫= k) b) = state_of (k (value_of (m b)) (state_of (m b))).
Proof.
  unfold mbind, M_bind, state_of, value_of.
  destruct (m b) as [[a b1] l1]. cbn.
  destruct (k a b1) as [[r b2] l2]. reflexivity.
Qed.

Lemma bind_events {A B} (m : M A) (k : A -> M B) (b : board) :
  events_of ((m ≫= k) b)
  = events_of (m b) ++ events_of (k (value_of (m b)) (state_of (m b))).
Proof.
  unfold mbind, M_bind, events_of, state_of, value_of.
  destruct (m b) as [[a b1] l1]. cbn.
  destruct (k a b1) as [[r b2] l2]. reflexivity.
Qed.

(** What the serial command of a pass does to the board. *)
Lemma loop_state (t : tick) (b : board) :
  state_of (loop t b)
  = match serial_rx t with
    | Some command => state_of (controlPump command b)
    | None => b
    end.
Proof.
  unfold loop. rewrite !bind_state. cbn.
  destruct (serial_rx t); reflexivity.
Qed.

Lemma loop_events (t : tick) (b : board) :
  events_of (loop t b)
  = [PrintFloat (getLevelPercent (ping_cm t)); PrintStr ",";
     PrintInt (prev_pump_state b); PrintStr (String "010"%char EmptyString)]
    ++ match serial_rx t with
       | Some command => events_of (controlPump command b)
       | None => []
       end.
Proof.
  unfold loop. rewrite !bind_events, ?bind_state. cbn.
  destruct (serial_rx t); reflexivity.
Qed.

(** C1, as stated, fails: after a pass that saw a full tank, a pass
    without an echo reports 0 and not the level of the pass before. *)
Lemma dropout_does_not_repeat_previous :
  reported_levels [Tick 4 None; Tick 0 None]
    = [Float32.of_Z 100; Float32.of_Z 0]
  /\ ~ repeats_previous_on_dropout [Tick 4 None; Tick 0 None].
Proof.
  split; [reflexivity|].
  intros H. specialize (H 0%nat (Tick 4 None) (Tick 0 None) eq_refl eq_refl eq_refl).
  vm_compute in H. discriminate H.
Qed.

(** C1, amended: a ping of 0 (no echo) makes [getLevelPercent] return 0,
    and this 0 is what the pass prints, whatever the board's state and
    whatever the passes before it reported; no earlier level is kept. *)
Theorem dropout_reports_zero (rx : option Ascii.ascii) (b : board)
    (earlier : list tick) :
  getLevelPercent 0 = S754_zero false
  /\ head (events_of (loop (Tick 0 rx) b)) = Some (PrintFloat (S754_zero false))
  /\ last (reported_levels (earlier ++ [Tick 0 rx])) = Some (S754_zero false).
Proof.
  split; [reflexivity|]. split.
  - rewrite loop_events. reflexivity.
  - unfold reported_levels. rewrite map_app. cbn [map].
    rewrite last_snoc. reflexivity.
Qed.

(** C4, as stated, fails at the reading 0: it is at or below
    [MIN_DISTANCE], yet the level is 0 and not 100. *)
Lemma zero_reading_is_not_full :
  0 <= MIN_DISTANCE
  /\ getLevelPercent 0 = Float32.of_Z 0
  /\ getLevelPercent 0 <> Float32.of_Z 100.
Proof.
  split; [unfold MIN_DISTANCE; lia|].
  split; [reflexivity|]. vm_compute. discriminate.
Qed.

(** C4, amended: for every reading the level lies in [0, 100]; readings
    from 1 to [MIN_DISTANCE] give 100; the reading 0 (no echo) and the
    readings from [MAX_DISTANCE] on give 0; a reading strictly between the
    marks gives the interpolation (MAX - d) / (MAX - MIN) * 100 evaluated
    in single precision, within 1/100000 of its exact value. *)
Theorem getLevelPercent_range_and_bands (d : Z) :
  (Float32.leb (Float32.of_Z 0) (getLevelPercent d) = true
   /\ Float32.leb (getLevelPercent d) (Float32.of_Z 100) = true)
  /\ (1 <= d <= MIN_DISTANCE -> getLevelPercent d = Float32.of_Z 100)
  /\ (d = 0 \/ MAX_DISTANCE <= d -> getLevelPercent d = Float32.of_Z 0)
  /\ (MIN_DISTANCE < d < MAX_DISTANCE ->
      getLevelPercent d
        = Float32.mul
            (Float32.div (Float32.of_Z (MAX_DISTANCE - d))
                         (Float32.of_Z (MAX_DISTANCE - MIN_DISTANCE)))
            (Float32.of_Z 100)
      /\ Float32.close_to (getLevelPercent d) (exact_percent d)
                          (Qmake 1 100000) = true).
Proof.
  split; [apply getLevelPercent_bounds|].
  split; [intros H; apply getLevelPercent_full; lia|].
  split.
  - intros [->|H]; [reflexivity|apply getLevelPercent_empty; exact H].
  - intros H. split; [apply getLevelPercent_between; exact H|].
    destruct (between_marks d H) as [->|[->|[->|[->|[->| ->]]]]];
      vm_compute; reflexivity.
Qed.

Lemma getLevelPercent_range_and_bands_witness :
  getLevelPercent 3 = Float32.of_Z 100
  /\ getLevelPercent 12 = Float32.of_Z 0
  /\ Float32.close_to (getLevelPercent 7) (exact_percent 7) (Qmake 1 100000) = true.
Proof.
  pose proof (getLevelPercent_range_and_bands 3) as (_ & H3 & _).
  pose proof (getLevelPercent_range_and_bands 12) as (_ & _ & H12 & _).
  pose proof (getLevelPercent_range_and_bands 7) as (_ & _ & _ & H7).
  split; [apply H3; unfold MIN_DISTANCE; lia|].
  split; [apply H12; right; unfold MAX_DISTANCE; lia|].
  apply H7. unfold MIN_DISTANCE, MAX_DISTANCE. lia.
Defined.

(** C8: a larger measured distance never reports a higher level, the
    dropout reading 0 left aside. *)
Theorem getLevelPercent_antitone (d1 d2 : Z) :
  1 <= d1 -> d1 <= d2 ->
  Float32.leb (getLevelPercent d2) (getLevelPercent d1) = true.
Proof.
  intros H1 H12.
  destruct (Z_le_gt_dec d1 MIN_DISTANCE) as [Hle|Hgt].
  { rewrite (getLevelPercent_full d1) by lia. apply getLevelPercent_bounds. }
  destruct (Z_le_gt_dec MAX_DISTANCE d2) as [Hge|Hlt].
  { rewrite (getLevelPercent_empty d2) by assumption.
    apply getLevelPercent_bounds. }
  assert (Hb1 : MIN_DISTANCE < d1 < MAX_DISTANCE) by lia.
  assert (Hb2 : MIN_DISTANCE < d2 < MAX_DISTANCE) by lia.
  destruct (between_marks d1 Hb1) as [->|[->|[->|[->|[->| ->]]]]];
    destruct (between_marks d2 Hb2) as [->|[->|[->|[->|[->| ->]]]]];
    solve [reflexivity | lia].
Qed.

Lemma getLevelPercent_antitone_witness :
  Float32.leb (getLevelPercent 9) (getLevelPercent 6) = true.
Proof. apply (getLevelPercent_antitone 6 9); lia. Defined.

(** What [controlPump] leaves behind, by command. *)
Lemma controlPump_state (cmd : Ascii.ascii) (b : board) :
  state_of (controlPump cmd b)
  = if Ascii.eqb cmd "0"%char then
      Board (<[RELAY_PIN := LOW]> (pins b)) 0
    else if Ascii.eqb cmd "1"%char then
      Board (<[LED_PIN := HIGH]> (<[RELAY_PIN := HIGH]> (pins b))) 1
    else b.
Proof.
  unfold controlPump.
  destruct (Ascii.eqb cmd "0"%char); [reflexivity|].
  destruct (Ascii.eqb cmd "1"%char); reflexivity.
Qed.

Lemma controlPump_events (cmd : Ascii.ascii) (b : board) :
  events_of (controlPump cmd b)
  = if Ascii.eqb cmd "0"%char then [DigitalWrite RELAY_PIN LOW]
    else if Ascii.eqb cmd "1"%char then
      [DigitalWrite RELAY_PIN HIGH; DigitalWrite LED_PIN HIGH]
    else [].
Proof.
  unfold controlPump.
  destruct (Ascii.eqb cmd "0"%char); [reflexivity|].
  destruct (Ascii.eqb cmd "1"%char); reflexivity.
Qed.

Lemma pump_on_relay_low (p : gmap Z level) (z : Z) :
  pump_on (Board (<[RELAY_PIN := LOW]> p) z) = false.
Proof. unfold pump_on. cbn. rewrite lookup_insert_eq. reflexivity. Qed.

Lemma pump_on_relay_high (p : gmap Z level) (z : Z) :
  pump_on (Board (<[LED_PIN := HIGH]> (<[RELAY_PIN := HIGH]> p)) z) = true.
Proof.
  unfold pump_on. cbn.
  rewrite lookup_insert_ne by (unfold LED_PIN, RELAY_PIN; lia).
  rewrite lookup_insert_eq. reflexivity.
Qed.

(** The pump after [controlPump]: '0' stops it, '1' starts it, any other
    byte leaves it as it was. *)
Lemma controlPump_pump_on (cmd : Ascii.ascii) (b : board) :
  pump_on (state_of (controlPump cmd b))
  = if Ascii.eqb cmd "0"%char then false
    else if Ascii.eqb cmd "1"%char then true
    else pump_on b.
Proof.
  rewrite controlPump_state.
  destruct (Ascii.eqb cmd "0"%char); [apply pump_on_relay_low|].
  destruct (Ascii.eqb cmd "1"%char); [apply pump_on_relay_high|reflexivity].
Qed.

(** C7: [controlPump] is idempotent. For every command byte, '0' and '1'
    among them, and every board, a second application leaves the relay
    pin, the LED pin and [prev_pump_state] as the first one left them. *)
Theorem controlPump_idempotent (cmd : Ascii.ascii) (b : board) :
  state_of (controlPump cmd (state_of (controlPump cmd b)))
  = state_of (controlPump cmd b).
Proof.
  rewrite (controlPump_state cmd (state_of _)), controlPump_state.
  destruct (Ascii.eqb cmd "0"%char).
  { cbn. f_equal. apply insert_insert_eq. }
  destruct (Ascii.eqb cmd "1"%char); [|reflexivity].
  cbn. f_equal. apply map_eq. intros i.
  rewrite !lookup_insert. repeat case_decide; reflexivity.
Qed.

(** The recorded state and the relay agree on every board a run reaches. *)
Lemma booted_consistent : consistent booted.
Proof. reflexivity. Qed.

Lemma loop_consistent (t : tick) (b : board) :
  consistent b -> consistent (state_of (loop t b)).
Proof.
  intros Hb. rewrite loop_state.
  destruct (serial_rx t) as [cmd|]; [|exact Hb].
  unfold consistent. rewrite controlPump_pump_on, controlPump_state.
  destruct (Ascii.eqb cmd "0"%char); [reflexivity|].
  destruct (Ascii.eqb cmd "1"%char); [reflexivity|exact Hb].
Qed.

Lemma run_consistent (ts : list tick) (b : board) :
  consistent b -> consistent (state_of (run ts b)).
Proof.
  revert b. induction ts as [|t ts IH]; intros b Hb.
  - exact Hb.
  - cbn [run]. rewrite bind_state. apply IH, loop_consistent, Hb.
Qed.

(** C2, as stated, fails: with a one-minute minimum run and the overfill
    cutoff at 95 percent, the pump is switched on in the first pass and off
    in the second, half a second later, at a level of 57 percent; and a
    full tank, above the cutoff, does not switch the pump off by itself. *)
Lemma pump_stopped_before_min_run :
  let cfg := Controller.example_config in
  let ts := [Tick 7 (Some "1"%char); Tick 7 (Some "0"%char)] in
  pump_on booted = false
  /\ pump_trace ts booted = [true; false]
  /\ Float32.leb (Controller.hard_off_percent cfg)
                 (reported_level (Tick 7 (Some "0"%char))) = false
  /\ LOOP_DELAY_MS < Controller.min_run_ms cfg
  /\ Controller.early_off cfg ts booted 0 = true
  /\ Float32.leb (Controller.hard_off_percent cfg)
                 (reported_level (Tick 4 None)) = true
  /\ pump_trace [Tick 7 (Some "1"%char); Tick 4 None] booted = [true; true].
Proof. vm_compute. repeat split; reflexivity. Qed.

(** C2, amended: the sketch keeps no run timer and no overfill cutoff. Once
    the pump is on, a pass switches it off exactly when the byte it reads
    from the serial line is '0', however short the time since it was
    switched on; the measured level plays no part in the board's state. *)
Theorem pump_off_iff_command_zero (t : tick) (b : board) :
  pump_on b = true ->
  (pump_on (state_of (loop t b)) = false <-> serial_rx t = Some "0"%char)
  /\ (forall d : Z, state_of (loop (Tick d (serial_rx t)) b) = state_of (loop t b)).
Proof.
  intros Hon. split.
  - rewrite loop_state. destruct (serial_rx t) as [cmd|].
    + rewrite controlPump_pump_on.
      destruct (Ascii.eqb_spec cmd "0"%char) as [->|Hne0].
      { split; reflexivity. }
      destruct (Ascii.eqb cmd "1"%char).
      * split; [discriminate|]. intros [= ->]. contradiction.
      * rewrite Hon. split; [discriminate|]. intros [= ->]. contradiction.
    + rewrite Hon. split; discriminate.
  - intros d. rewrite !loop_state. reflexivity.
Qed.

Lemma pump_off_iff_command_zero_witness :
  pump_on (state_of (loop (Tick 7 (Some "0"%char))
                          (state_of (loop (Tick 7 (Some "1"%char)) booted))))
  = false.
Proof.
  apply (pump_off_iff_command_zero (Tick 7 (Some "0"%char))
           (state_of (loop (Tick 7 (Some "1"%char)) booted))).
  - vm_compute. reflexivity.
  - reflexivity.
Defined.

(** C3, as stated, fails on the sketch. With the thresholds at 20 and 60
    percent: a full tank and the command '1' switch the pump on although
    the level is above the on-threshold; an empty tank, the off-time long
    over and no command leave the pump off; and a pass without a command
    writes no pin at all. *)
Lemma sketch_ignores_thresholds :
  let cfg := Controller.example_config in
  pump_on booted = false
  /\ Float32.leb (reported_level (Tick 4 (Some "1"%char)))
                 (Controller.on_threshold_percent cfg) = false
  /\ pump_on (state_of (loop (Tick 4 (Some "1"%char)) booted)) = true
  /\ Controller.follows_spec cfg [Tick 4 (Some "1"%char)] booted
       (Controller.min_off_ms cfg) = false
  /\ Controller.spec_next_state cfg false (reported_level (Tick 11 None))
       (Controller.min_off_ms cfg) = true
  /\ pump_on (state_of (loop (Tick 11 None) booted)) = false
  /\ digital_writes (events_of (loop (Tick 11 None) booted)) = [].
Proof. vm_compute. repeat split; reflexivity. Qed.

(** C3, amended: the sketch's pump follows the serial line alone. In a pass
    the pump is on afterwards if the byte read is '1', off if it is '0',
    and as before if no byte or another byte was read; so Off changes to On
    exactly on '1' and On changes to Off exactly on '0', whatever the level
    and the time in the state. The relay pin is written only when '0' or
    '1' is read (with '1' the LED pin too); in every other pass no pin is
    written and the board is left as it was. *)
Theorem pump_follows_serial_command (t : tick) (b : board) :
  pump_on (state_of (loop t b))
  = match serial_rx t with
    | Some cmd =>
        if Ascii.eqb cmd "0"%char then false
        else if Ascii.eqb cmd "1"%char then true
        else pump_on b
    | None => pump_on b
    end
  /\ digital_writes (events_of (loop t b))
    = match serial_rx t with
      | Some cmd =>
          if Ascii.eqb cmd "0"%char then [(RELAY_PIN, LOW)]
          else if Ascii.eqb cmd "1"%char then [(RELAY_PIN, HIGH); (LED_PIN, HIGH)]
          else []
      | None => []
      end
  /\ state_of (loop t b)
    = match serial_rx t with
      | Some cmd =>
          if Ascii.eqb cmd "0"%char || Ascii.eqb cmd "1"%char
          then state_of (controlPump cmd b)
          else b
      | None => b
      end.
Proof.
  rewrite loop_state, loop_events. cbn [app digital_writes].
  destruct (serial_rx t) as [cmd|]; [|repeat split; reflexivity].
  rewrite controlPump_pump_on, controlPump_events, controlPump_state.
  destruct (Ascii.eqb cmd "0"%char); [repeat split; reflexivity|].
  destruct (Ascii.eqb cmd "1"%char); repeat split; reflexivity.
Qed.

End SketchFacts.

(** ** The consumption tracker *)
Section TrackerFacts.
Import Tracker.
Local Open Scope Q_scope.

Lemma consumption_delta_nonneg (pump : PumpState) (leak : bool) (previous current : Q) :
  0 <= consumption_delta pump leak previous current.
Proof.
  unfold consumption_delta. destruct pump; [|apply Qle_refl].
  cbv zeta. destruct (Qle_bool (previous - current) 0) eqn:Hle; [apply Qle_refl|].
  destruct leak; [apply Qle_refl|].
  apply Qlt_le_weak, Qnot_le_lt. intros H.
  apply Qle_bool_iff in H. congruence.
Qed.

Lemma to_equivalent_nonneg (capacity : option Q) (percent : Q) :
  capacity_ok capacity -> 0 <= percent -> 0 <= to_equivalent capacity percent.
Proof.
  destruct capacity as [c|]; cbn; intros Hc Hp; [|exact Hp].
  unfold Qdiv. apply Qmult_le_0_compat; [|discriminate].
  apply Qmult_le_0_compat; assumption.
Qed.

Lemma rollover_day_total (day : Z) (l : ConsumptionLedger) (d : Z) :
  day_total (rollover day l) d = day_total l d.
Proof. unfold rollover. destruct (decide (day = current_day l)); reflexivity. Qed.

(** A tick touches the entry of its own day only, and adds to it. *)
Lemma record_tick_day_total (capacity : option Q) (day : Z) (pump : PumpState)
    (leak : bool) (previous current : Q) (l : ConsumptionLedger) (d : Z) :
  day_total (record_tick capacity day pump leak previous current l) d
  = if decide (day = d)
    then day_total l d
         + to_equivalent capacity (consumption_delta pump leak previous current)
    else day_total l d.
Proof.
  unfold record_tick, day_total at 1. cbn [day_totals].
  rewrite lookup_insert. destruct (decide (day = d)) as [->|Hne].
  - cbn. rewrite rollover_day_total. reflexivity.
  - fold (day_total (rollover day l) d). apply rollover_day_total.
Qed.

Lemma record_tick_monotone (capacity : option Q) (day : Z) (pump : PumpState)
    (leak : bool) (previous current : Q) (l : ConsumptionLedger) (d : Z) :
  capacity_ok capacity ->
  day_total l d <= day_total (record_tick capacity day pump leak previous current l) d.
Proof.
  intros Hc. rewrite record_tick_day_total.
  destruct (decide (day = d)); [|apply Qle_refl].
  pose proof (to_equivalent_nonneg capacity _ Hc
                (consumption_delta_nonneg pump leak previous current)) as H.
  lra.
Qed.

Lemma track_monotone (capacity : option Q) (st : tracker) (o : observation) (d : Z) :
  capacity_ok capacity ->
  day_total (ledger st) d <= day_total (ledger (track capacity st o)) d.
Proof.
  intros Hc. unfold track. cbn [ledger].
  destruct (previous_smoothed_percent st).
  - apply record_tick_monotone, Hc.
  - rewrite rollover_day_total. apply Qle_refl.
Qed.

(** C5: the ledger's day totals never decrease, over one tick and over any
    run of ticks; on a tick with the pump Off whose level is above the
    previous one nothing is attributed and every total stays as it was; the
    tick previous = 40, current = 41, pump Off attributes zero. *)
Theorem ledger_day_totals_monotone (capacity : option Q) (st : tracker)
    (os : list observation) (day : Z) (leak : bool) (previous current : Q)
    (l : ConsumptionLedger) (d : Z) :
  capacity_ok capacity ->
  day_total (ledger st) d <= day_total (ledger (track_all capacity st os)) d
  /\ day_total l d <= day_total (record_tick capacity day Off leak previous current l) d
  /\ (previous < current ->
      consumption_delta Off leak previous current = 0
      /\ day_total (record_tick capacity day Off leak previous current l) d
         == day_total l d)
  /\ consumption_delta Off false 40 41 = 0.
Proof.
  intros Hc. split; [|split; [|split]].
  - revert st. induction os as [|o os IH]; intros st.
    + apply Qle_refl.
    + cbn [track_all foldl]. eapply Qle_trans; [apply track_monotone, Hc|].
      apply IH.
  - apply record_tick_monotone, Hc.
  - intros Hlt.
    assert (Hz : consumption_delta Off leak previous current = 0).
    { unfold consumption_delta. cbv zeta.
      destruct (Qle_bool (previous - current) 0) eqn:Hle; [reflexivity|].
      exfalso. assert (H : previous - current <= 0) by lra.
      apply Qle_bool_iff in H. congruence. }
    split; [exact Hz|].
    rewrite record_tick_day_total, Hz.
    destruct (decide (day = d)); [|reflexivity].
    destruct capacity as [c|]; cbn; field.
  - reflexivity.
Qed.

Lemma ledger_day_totals_monotone_witness :
  let l := {| day_totals := {[ 3%Z := 12 ]}; current_day := 3%Z; history := [] |} in
  day_total l 3 <= day_total (record_tick (Some 1000) 3 Off false 40 41 l) 3.
Proof.
  intros l.
  apply (ledger_day_totals_monotone (Some 1000)
           {| ledger := l; previous_smoothed_percent := None |} []
           3%Z false 40 41 l 3%Z).
  cbn. discriminate.
Defined.

Lemma take_min_length {A} (n : nat) (xs : list A) :
  take (Nat.min n (length xs)) xs = take n xs.
Proof.
  destruct (Nat.le_gt_cases n (length xs)) as [Hle|Hgt].
  - rewrite Nat.min_l by exact Hle. reflexivity.
  - rewrite Nat.min_r by lia. rewrite !take_ge by lia. reflexivity.
Qed.

(** C6: whenever a prediction is made it is the current level divided by
    the average of the last min(7, available) days of consumption; one day
    of 5 percent and a level of 50 percent give 10 days; and there is no
    prediction ("insufficient data") exactly when the history holds fewer
    than one day or that average is zero. *)
Theorem predict_days_remaining (level : Q) (hist : list Q) :
  (forall r, predict level hist = Some r ->
             r = level / average (take 7 hist)
             /\ (1 <= length hist)%nat
             /\ ~ average (take 7 hist) == 0)
  /\ (predict level hist = None <->
      (length hist < 1)%nat \/ average (take 7 hist) == 0)
  /\ (exists r, predict 50 [5] = Some r /\ r == 10)
  /\ predict level [] = None.
Proof.
  unfold predict. cbv zeta. rewrite take_min_length.
  destruct (Nat.ltb_spec (length hist) 1) as [Hlt|Hge].
  - repeat split; try discriminate; try (intros; left; exact Hlt).
    exists (50 / average [5]). split; reflexivity.
  - destruct (Qeq_bool (average (take 7 hist)) 0) eqn:Havg.
    + apply Qeq_bool_iff in Havg.
      repeat split; try discriminate; try (intros; right; exact Havg).
      exists (50 / average [5]). split; reflexivity.
    + assert (Hne : ~ average (take 7 hist) == 0).
      { intros H. apply Qeq_bool_iff in H. congruence. }
      split; [|split; [|split]].
      * intros r [= <-]. repeat split; [exact Hge|exact Hne].
      * split; [discriminate|]. intros [H|H]; [lia|contradiction].
      * exists (50 / average [5]). split; reflexivity.
      * reflexivity.
Qed.

End TrackerFacts.

(** ** The stored credentials *)
Section ApiFacts.
Import JS Api.

Lemma eqb_empty_false (s : string) :
  s <> EmptyString -> String.eqb s EmptyString = false.
Proof. intros H. apply String.eqb_neq. exact H. Qed.

(** [!v.key] is false exactly when the property is there and not empty. *)
Lemma not_false_nonempty (v : json) (key : string) :
  JS.negation (get v key) = Some false <-> nonempty_property v key.
Proof.
  unfold nonempty_property. split.
  - destruct (get v key) as [| |x] eqn:Hget; cbn; try discriminate.
    intros [= Hx]. apply negb_false_iff in Hx.
    exists x. repeat split; [exact Hx|].
    intros ->. cbn in Hx. discriminate.
  - intros (x & -> & Hx & _). cbn. rewrite Hx. reflexivity.
Qed.

(** When [loadCredentials] returns a value, and which one. *)
Lemma loadCredentials_Some_iff (JSON_parse : string -> option json)
    (window : bool) (ls : gmap string string) (v : json) :
  loadCredentials JSON_parse window ls = Some v <->
  window = true
  /\ exists raw, ls !! CREDS_KEY = Some raw
      /\ raw <> EmptyString
      /\ JSON_parse raw = Some v
      /\ nonempty_property v "username"
      /\ nonempty_property v "password".
Proof.
  unfold loadCredentials. split.
  - destruct window; cbn; [|discriminate].
    destruct (ls !! CREDS_KEY) as [raw|]; [|discriminate].
    destruct (String.eqb_spec raw EmptyString) as [|Hraw]; [discriminate|].
    destruct (JSON_parse raw) as [parsed|] eqn:Hparse; [|discriminate].
    destruct (JS.negation (get parsed "username")) as [[|]|] eqn:Hu; try discriminate.
    destruct (JS.negation (get parsed "password")) as [[|]|] eqn:Hp; try discriminate.
    intros [= <-]. split; [reflexivity|]. exists raw.
    apply not_false_nonempty in Hu, Hp.
    split; [reflexivity|]. split; [exact Hraw|]. split; [exact Hparse|].
    split; assumption.
  - intros (-> & raw & -> & Hraw & -> & Hu & Hp). cbn.
    apply not_false_nonempty in Hu, Hp.
    rewrite eqb_empty_false by exact Hraw. rewrite Hu, Hp. reflexivity.
Qed.

(** What was persisted is what is loaded, in the browser. *)
Lemma loadCredentials_persist
    (JSON_stringify : json -> string) (JSON_parse : string -> option json)
    (creds : BasicCreds) (ls : gmap string string) :
  JSON_parse EmptyString = None ->
  JSON_parse (JSON_stringify (creds_object creds)) = Some (creds_object creds) ->
  username creds <> EmptyString ->
  password creds <> EmptyString ->
  loadCredentials JSON_parse true
    (persistCredentials JSON_stringify true creds ls)
  = Some (creds_object creds).
Proof.
  intros Hempty Hparse Hu Hp. apply loadCredentials_Some_iff.
  split; [reflexivity|]. exists (JSON_stringify (creds_object creds)).
  split; [apply lookup_insert_eq|]. split; [|split; [exact Hparse|]].
  - intros Heq. rewrite Heq, Hempty in Hparse. discriminate.
  - split.
    + exists (JStr (username creds)). split; [reflexivity|]. cbn.
      rewrite eqb_empty_false by exact Hu. split; [reflexivity|congruence].
    + exists (JStr (password creds)). split; [reflexivity|]. cbn.
      rewrite eqb_empty_false by exact Hp. split; [reflexivity|congruence].
Qed.

(** C9: in the browser, credentials with a non-empty username and a
    non-empty password come back from [loadCredentials] as they were handed
    to [persistCredentials], for an engine whose [JSON.parse] undoes
    [JSON.stringify] on them and rejects the empty text; and
    [loadCredentials] never returns a value whose username or password is
    missing or empty: it returns null when nothing is stored, when the
    stored text does not parse, and when the parsed value lacks a non-empty
    username or password. *)
Theorem stored_credentials_round_trip
    (JSON_stringify : json -> string) (JSON_parse : string -> option json)
    (creds : BasicCreds) (ls : gmap string string) :
  (JSON_parse EmptyString = None ->
   JSON_parse (JSON_stringify (creds_object creds)) = Some (creds_object creds) ->
   username creds <> EmptyString ->
   password creds <> EmptyString ->
   loadCredentials JSON_parse true
     (persistCredentials JSON_stringify true creds ls)
   = Some (creds_object creds))
  /\ (forall window v,
        loadCredentials JSON_parse window ls = Some v ->
        nonempty_property v "username" /\ nonempty_property v "password")
  /\ (forall window,
        ls !! CREDS_KEY = None -> loadCredentials JSON_parse window ls = None)
  /\ (forall window raw,
        ls !! CREDS_KEY = Some raw -> JSON_parse raw = None ->
        loadCredentials JSON_parse window ls = None)
  /\ (forall window raw v,
        ls !! CREDS_KEY = Some raw -> JSON_parse raw = Some v ->
        ~ (nonempty_property v "username" /\ nonempty_property v "password") ->
        loadCredentials JSON_parse window ls = None).
Proof.
  split; [|split; [|split; [|split]]].
  - apply loadCredentials_persist.
  - intros window v H. apply loadCredentials_Some_iff in H.
    destruct H as (_ & raw & _ & _ & _ & Hu & Hp). split; assumption.
  - intros window Hnone.
    destruct (loadCredentials JSON_parse window ls) as [v|] eqn:H; [|reflexivity].
    apply loadCredentials_Some_iff in H. destruct H as (_ & raw & Hraw & _).
    congruence.
  - intros window raw Hraw Hparse.
    destruct (loadCredentials JSON_parse window ls) as [v|] eqn:H; [|reflexivity].
    apply loadCredentials_Some_iff in H. destruct H as (_ & raw' & Hraw' & _ & Hp & _).
    congruence.
  - intros window raw v Hraw Hparse Hnot.
    destruct (loadCredentials JSON_parse window ls) as [v'|] eqn:H; [|reflexivity].
    apply loadCredentials_Some_iff in H.
    destruct H as (_ & raw' & Hraw' & _ & Hp & Hu & Hpw).
    exfalso. apply Hnot. assert (v' = v) as <- by congruence. split; assumption.
Qed.

Lemma stored_credentials_round_trip_witness :
  let creds := {| username := "admin"; password := "strongpass" |} in
  loadCredentials FlatJSON.parse true
    (persistCredentials FlatJSON.stringify true creds ∅)
  = Some (creds_object creds).
Proof.
  intros creds.
  apply (stored_credentials_round_trip FlatJSON.stringify FlatJSON.parse creds ∅).
  - reflexivity.
  - vm_compute. reflexivity.
  - discriminate.
  - discriminate.
Defined.

End ApiFacts.

(** ** The flat codec *)
Section FlatJSONFacts.
Import JS Api FlatJSON.

Lemma append_cons (x : Ascii.ascii) (a b : string) :
  (String x a +:+ b) = String x (a +:+ b).
Proof. reflexivity. Qed.

Lemma append_nil (b : string) : (EmptyString +:+ b) = b.
Proof. reflexivity. Qed.

Lemma append_assoc (a b c : string) : (a +:+ b) +:+ c = a +:+ (b +:+ c).
Proof.
  induction a as [|x a IH]; [reflexivity|].
  rewrite !append_cons, IH. reflexivity.
Qed.

Lemma parse_chars_escape (s rest : string) :
  parse_chars (escape s +:+ String dquote rest) = Some (s, rest).
Proof.
  induction s as [|c s IH]; [reflexivity|].
  cbn [escape].
  destruct (Ascii.eqb c dquote) eqn:Hq; cbn [orb].
  - rewrite !append_cons. cbn [parse_chars]. rewrite Hq, IH.
    apply Ascii.eqb_eq in Hq. subst c. reflexivity.
  - destruct (Ascii.eqb c backslash) eqn:Hb.
    + rewrite !append_cons. cbn [parse_chars]. rewrite Hb, IH.
      apply Ascii.eqb_eq in Hb. subst c. reflexivity.
    + rewrite !append_cons. cbn [parse_chars]. rewrite Hq, Hb, IH. reflexivity.
Qed.

Lemma parse_quoted_quote (s rest : string) :
  parse_quoted (quote s +:+ rest) = Some (s, rest).
Proof.
  unfold quote. rewrite append_cons, append_assoc, append_cons, append_nil.
  apply parse_chars_escape.
Qed.

Lemma quote_append (s rest : string) :
  quote s +:+ rest = String dquote (escape s +:+ String dquote rest).
Proof.
  unfold quote. rewrite append_cons, append_assoc, append_cons, append_nil.
  reflexivity.
Qed.

Lemma length_append (a b : string) :
  String.length (a +:+ b) = (String.length a + String.length b)%nat.
Proof.
  induction a as [|x a IH]; [reflexivity|].
  rewrite append_cons. cbn [String.length]. rewrite IH. reflexivity.
Qed.

(** The text of one field and of what follows it. *)
Lemma parse_fields_last (fuel : nat) (k v : string) :
  parse_fields (S fuel) (quote k +:+ String ":" (quote v +:+ "}"))
  = Some [(k, JStr v)].
Proof.
  cbn [parse_fields]. rewrite parse_quoted_quote.
  unfold expect. rewrite Ascii.eqb_refl, parse_quoted_quote. reflexivity.
Qed.

Lemma parse_fields_more (fuel : nat) (k v rest : string) :
  parse_fields (S fuel) (quote k +:+ String ":" (quote v +:+ String "," rest))
  = match parse_fields fuel rest with
    | Some fields => Some ((k, JStr v) :: fields)
    | None => None
    end.
Proof.
  cbn [parse_fields]. rewrite parse_quoted_quote.
  unfold expect. rewrite Ascii.eqb_refl, parse_quoted_quote. reflexivity.
Qed.

Lemma parse_stringify_creds (creds : BasicCreds) :
  parse (stringify (creds_object creds)) = Some (creds_object creds).
Proof.
  unfold creds_object, stringify, stringify_fields.
  repeat rewrite ?append_assoc, ?append_cons, ?append_nil.
  set (fields := quote "username" +:+ _).
  assert (Hlen : exists n, String.length fields = S (S n)).
  { subst fields. rewrite quote_append. cbn [String.length].
    rewrite length_append. cbn [String.length]. rewrite Nat.add_succ_r.
    eexists. reflexivity. }
  destruct Hlen as [n Hn].
  assert (Hparse : parse (String "{" fields)
                   = match parse_fields (String.length fields) fields with
                     | Some fs => Some (JObj fs)
                     | None => None
                     end).
  { subst fields. rewrite quote_append. reflexivity. }
  rewrite Hparse, Hn. subst fields.
  rewrite parse_fields_more, parse_fields_last. reflexivity.
Qed.

(** With the flat codec nothing is assumed of the engine: whatever the
    credentials contain, quotes and backslashes included, they come back. *)
Lemma flat_codec_round_trip (creds : BasicCreds) (ls : gmap string string) :
  username creds <> EmptyString ->
  password creds <> EmptyString ->
  loadCredentials parse true (persistCredentials stringify true creds ls)
  = Some (creds_object creds).
Proof.
  intros Hu Hp. apply loadCredentials_persist; try assumption.
  - reflexivity.
  - apply parse_stringify_creds.
Qed.

End FlatJSONFacts.

(** ** The issue list *)
Section IssuesFacts.
Import JS Issues.

Variable JSON_stringify : json -> string.

(** C10: [toggleResolved] keeps the length and the order of the list; the
    issue at each position keeps its id, title, description, category,
    timestamp and username; its resolved flag is negated when its id is the
    given one and kept otherwise, and an issue with another id is left as
    a whole; in [localStorage] only the issues entry is written. *)
Theorem toggleResolved_frame (id' : string) (v : view) :
  let v' := toggleResolved JSON_stringify id' v in
  length (issues v') = length (issues v)
  /\ (forall (n : nat) (issue : Issue),
        issues v !! n = Some issue ->
        exists issue',
          issues v' !! n = Some issue'
          /\ id issue' = id issue
          /\ title issue' = title issue
          /\ description issue' = description issue
          /\ category issue' = category issue
          /\ timestamp issue' = timestamp issue
          /\ username issue' = username issue
          /\ resolved issue'
             = (if String.eqb (id issue) id' then negb (resolved issue)
                else resolved issue)
          /\ (id issue <> id' -> issue' = issue))
  /\ (forall n, issues v !! n = None -> issues v' !! n = None)
  /\ (forall key, key <> LOCAL_STORAGE_KEY ->
                  localStorage v' !! key = localStorage v !! key).
Proof.
  cbv zeta. unfold toggleResolved. cbn [issues localStorage].
  split; [apply length_map|]. split; [|split].
  - intros n issue Hn. rewrite list_lookup_fmap, Hn. cbn [fmap option_fmap option_map].
    destruct (String.eqb_spec (id issue) id') as [Heq|Hne].
    + eexists. split; [reflexivity|]. cbn. repeat split. intros H. contradiction.
    + exists issue. repeat split.
  - intros n Hn. rewrite list_lookup_fmap, Hn. reflexivity.
  - intros key Hkey. unfold saveIssues.
    apply lookup_insert_ne. intros H. apply Hkey. symmetry. exact H.
Qed.

End IssuesFacts.

(** ** More on the sketch: whole runs *)
Section SketchRuns.
Import Sketch.

Lemma run_cons_state (t : tick) (ts : list tick) (b : board) :
  state_of (run (t :: ts) b) = state_of (run ts (state_of (loop t b))).
Proof. cbn [run]. rewrite bind_state. reflexivity. Qed.

Lemma run_cons_events (t : tick) (ts : list tick) (b : board) :
  events_of (run (t :: ts) b)
  = events_of (loop t b) ++ events_of (run ts (state_of (loop t b))).
Proof. cbn [run]. rewrite bind_events. reflexivity. Qed.

Lemma boot_and_run_state (ts : list tick) :
  state_of (boot_and_run ts) = state_of (run ts booted).
Proof. unfold boot_and_run. rewrite bind_state. reflexivity. Qed.

Lemma boot_and_run_events (ts : list tick) :
  events_of (boot_and_run ts)
  = events_of (setup power_up) ++ events_of (run ts booted).
Proof. unfold boot_and_run. rewrite bind_events. reflexivity. Qed.

Lemma loop_pump_on (t : tick) (b : board) :
  pump_on (state_of (loop t b)) = default (pump_on b) (tick_command t).
Proof.
  rewrite loop_state. unfold tick_command, command_of.
  destruct (serial_rx t) as [cmd|]; [|reflexivity].
  rewrite controlPump_pump_on.
  destruct (Ascii.eqb cmd "0"%char); [reflexivity|].
  destruct (Ascii.eqb cmd "1"%char); reflexivity.
Qed.

(** X1: on every board a run reaches from power-up, [prev_pump_state] is
    1 when the relay drives the pump and 0 when it does not. *)
Theorem recorded_state_tracks_relay (ts : list tick) :
  prev_pump_state (state_of (boot_and_run ts))
  = (if pump_on (state_of (boot_and_run ts)) then 1 else 0).
Proof.
  rewrite boot_and_run_state.
  apply (run_consistent ts booted), booted_consistent.
Qed.

(** X2: after a run the pump is as the last '0' or '1' read in the run
    says, and as it was before the run when none was read; started from
    power-up it is off until the first '1'. *)
Theorem pump_follows_last_command (ts : list tick) (b : board) :
  pump_on (state_of (run ts b)) = default (pump_on b) (last_command ts)
  /\ pump_on (state_of (boot_and_run ts)) = default false (last_command ts).
Proof.
  assert (H : forall ts b,
             pump_on (state_of (run ts b)) = default (pump_on b) (last_command ts)).
  { clear ts b. induction ts as [|t ts IH]; intros b; [reflexivity|].
    rewrite run_cons_state, IH, loop_pump_on. cbn [last_command].
    destruct (last_command ts); reflexivity. }
  split; [apply H|]. rewrite boot_and_run_state. apply H.
Qed.

(** The pins after one pass. *)
Lemma loop_pins (t : tick) (b : board) (pin : Z) :
  pins (state_of (loop t b)) !! pin
  = match tick_command t with
    | Some false => if decide (pin = RELAY_PIN) then Some LOW else pins b !! pin
    | Some true =>
        if decide (pin = LED_PIN) then Some HIGH
        else if decide (pin = RELAY_PIN) then Some HIGH
        else pins b !! pin
    | None => pins b !! pin
    end.
Proof.
  rewrite loop_state. unfold tick_command, command_of.
  destruct (serial_rx t) as [cmd|]; [|reflexivity].
  rewrite controlPump_state.
  destruct (Ascii.eqb cmd "0"%char).
  { cbn [pins]. rewrite lookup_insert.
    destruct (decide (RELAY_PIN = pin)) as [<-|Hne].
    - rewrite decide_True by reflexivity. reflexivity.
    - rewrite decide_False by congruence. reflexivity. }
  destruct (Ascii.eqb cmd "1"%char); [|reflexivity].
  cbn [pins]. rewrite !lookup_insert.
  destruct (decide (LED_PIN = pin)) as [<-|Hled].
  { rewrite decide_True by reflexivity. reflexivity. }
  rewrite (decide_False (P := pin = LED_PIN)) by congruence.
  destruct (decide (RELAY_PIN = pin)) as [<-|Hrel].
  - rewrite decide_True by reflexivity. reflexivity.
  - rewrite decide_False by congruence. reflexivity.
Qed.

(** X3: the LED is latched. Over a run the LED pin goes high with the
    first '1' and is never driven low again, also when the pump is
    switched off; every pin other than the relay and the LED, the buzzer
    among them, stays as it was. From power-up the LED is high exactly
    when some pass read '1', and the buzzer is low. *)
Theorem led_latched (ts : list tick) (b : board) :
  pins (state_of (run ts b)) !! LED_PIN
  = (if switched_on ts then Some HIGH else pins b !! LED_PIN)
  /\ (forall pin, pin <> RELAY_PIN -> pin <> LED_PIN ->
                  pins (state_of (run ts b)) !! pin = pins b !! pin)
  /\ pins (state_of (boot_and_run ts)) !! LED_PIN
     = Some (if switched_on ts then HIGH else LOW)
  /\ pins (state_of (boot_and_run ts)) !! BUZZER_PIN = Some LOW.
Proof.
  assert (Hled : forall ts b,
             pins (state_of (run ts b)) !! LED_PIN
             = if switched_on ts then Some HIGH else pins b !! LED_PIN).
  { clear ts b. induction ts as [|t ts IH]; intros b; [reflexivity|].
    rewrite run_cons_state, IH, loop_pins. unfold switched_on. cbn [existsb].
    fold (switched_on ts).
    destruct (switched_on ts); [rewrite orb_true_r; reflexivity|].
    rewrite orb_false_r. destruct (tick_command t) as [[|]|]; reflexivity. }
  assert (Hother : forall ts b pin, pin <> RELAY_PIN -> pin <> LED_PIN ->
             pins (state_of (run ts b)) !! pin = pins b !! pin).
  { clear ts b. induction ts as [|t ts IH]; intros b pin Hr Hl; [reflexivity|].
    rewrite run_cons_state, IH, loop_pins by assumption.
    rewrite !decide_False by assumption.
    destruct (tick_command t) as [[|]|]; reflexivity. }
  split; [apply Hled|]. split; [apply Hother|]. split.
  - rewrite boot_and_run_state, Hled. destruct (switched_on ts); reflexivity.
  - rewrite boot_and_run_state, Hother; [reflexivity| |]; discriminate.
Qed.

Lemma printed_states_app (es1 es2 : list event) :
  printed_states (es1 ++ es2) = printed_states es1 ++ printed_states es2.
Proof.
  induction es1 as [|e es1 IH]; [reflexivity|].
  destruct e; cbn [app printed_states]; rewrite IH; reflexivity.
Qed.

Lemma loop_printed_states (t : tick) (b : board) :
  printed_states (events_of (loop t b)) = [prev_pump_state b].
Proof.
  rewrite loop_events, printed_states_app. cbn [printed_states app].
  destruct (serial_rx t) as [cmd|]; [|reflexivity].
  rewrite controlPump_events.
  destruct (Ascii.eqb cmd "0"%char); [reflexivity|].
  destruct (Ascii.eqb cmd "1"%char); reflexivity.
Qed.

Lemma pump_trace_length (ts : list tick) (b : board) :
  length (pump_trace ts b) = length ts.
Proof.
  revert b. induction ts as [|t ts IH]; intros b; [reflexivity|].
  cbn [pump_trace length]. rewrite IH. reflexivity.
Qed.

Lemma run_printed_states (ts : list tick) (b : board) :
  consistent b ->
  printed_states (events_of (run ts b))
  = map Z.b2z (take (length ts) (pump_on b :: pump_trace ts b)).
Proof.
  revert b. induction ts as [|t ts IH]; intros b Hb; [reflexivity|].
  rewrite run_cons_events, printed_states_app, loop_printed_states.
  rewrite IH by (apply loop_consistent, Hb).
  cbn [pump_trace length take map app]. f_equal.
  rewrite Hb. destruct (pump_on b); reflexivity.
Qed.

(** X4: a run from power-up prints one pump state per pass, and the state
    printed in a pass is the pump's state before that pass's command: 0 in
    the first pass, afterwards what the pass before left. The effect of a
    command shows one line late. *)
Theorem printed_state_lags_one_pass (ts : list tick) :
  printed_states (events_of (boot_and_run ts))
  = map Z.b2z (take (length ts) (false :: pump_trace ts booted))
  /\ length (printed_states (events_of (boot_and_run ts))) = length ts.
Proof.
  assert (H : printed_states (events_of (boot_and_run ts))
              = map Z.b2z (take (length ts) (false :: pump_trace ts booted))).
  { rewrite boot_and_run_events, printed_states_app.
    rewrite (run_printed_states ts booted booted_consistent). reflexivity. }
  split; [exact H|].
  rewrite H, length_map, length_take. cbn [length].
  rewrite pump_trace_length. lia.
Qed.

(** X5: the level is 0 exactly for the reading 0 and the readings from
    [MAX_DISTANCE] on, and 100 exactly for the readings other than 0 up to
    [MIN_DISTANCE]; a reading of 0 percent cannot be told from a dropout. *)
Theorem level_extremes (d : Z) :
  (getLevelPercent d = Float32.of_Z 0 <-> d = 0 \/ MAX_DISTANCE <= d)
  /\ (getLevelPercent d = Float32.of_Z 100 <-> d <> 0 /\ d <= MIN_DISTANCE).
Proof.
  destruct (Z.eq_dec d 0) as [->|Hnz].
  { split; split; try (intros; left; reflexivity); try reflexivity.
    - vm_compute. discriminate.
    - intros [H _]. contradiction. }
  destruct (Z_le_gt_dec d MIN_DISTANCE) as [Hle|Hgt].
  { rewrite getLevelPercent_full by assumption. split; split.
    - vm_compute. discriminate.
    - unfold MIN_DISTANCE, MAX_DISTANCE in *. lia.
    - intros _. split; assumption.
    - reflexivity. }
  destruct (Z_le_gt_dec MAX_DISTANCE d) as [Hge|Hlt].
  { rewrite getLevelPercent_empty by assumption. split; split.
    - intros _. right. exact Hge.
    - reflexivity.
    - vm_compute. discriminate.
    - lia. }
  assert (H : MIN_DISTANCE < d < MAX_DISTANCE) by lia.
  split; split; try lia;
    destruct (between_marks d H) as [->|[->|[->|[->|[->| ->]]]]];
    vm_compute; discriminate.
Qed.

(** X6: from [MIN_DISTANCE] to [MAX_DISTANCE] the level falls strictly
    with every centimetre, so a level in that band tells the reading. *)
Theorem level_strictly_falls (d1 d2 : Z) :
  MIN_DISTANCE <= d1 -> d1 < d2 -> d2 <= MAX_DISTANCE ->
  SFltb (getLevelPercent d2) (getLevelPercent d1) = true.
Proof.
  unfold MIN_DISTANCE, MAX_DISTANCE. intros H1 H12 H2.
  assert (Hd1 : d1 = 4 \/ d1 = 5 \/ d1 = 6 \/ d1 = 7 \/ d1 = 8 \/ d1 = 9 \/ d1 = 10)
    by lia.
  assert (Hd2 : d2 = 5 \/ d2 = 6 \/ d2 = 7 \/ d2 = 8 \/ d2 = 9 \/ d2 = 10 \/ d2 = 11)
    by lia.
  destruct Hd1 as [->|[->|[->|[->|[->|[->| ->]]]]]];
    destruct Hd2 as [->|[->|[->|[->|[->|[->| ->]]]]]];
    solve [reflexivity | lia].
Qed.

Lemma level_strictly_falls_witness :
  SFltb (getLevelPercent 8) (getLevelPercent 5) = true.
Proof.
  apply (level_strictly_falls 5 8); unfold MIN_DISTANCE, MAX_DISTANCE; lia.
Defined.

End SketchRuns.

(** ** More on [lib/api.ts] *)
Section ApiMore.
Import JS Api.

(** X7: [clearCredentials] forgets. Whatever was stored and whatever the
    engine's parser does, [loadCredentials] returns null after it; clearing
    undoes a [persistCredentials], and no other key of [localStorage] is
    touched. *)
Theorem clearCredentials_forgets
    (JSON_stringify : json -> string) (JSON_parse : string -> option json)
    (window : bool) (creds : BasicCreds) (ls : gmap string string) :
  loadCredentials JSON_parse window (clearCredentials window ls) = None
  /\ clearCredentials window (persistCredentials JSON_stringify window creds ls)
     = clearCredentials window ls
  /\ (forall key, key <> CREDS_KEY ->
                  clearCredentials window ls !! key = ls !! key).
Proof.
  unfold loadCredentials, clearCredentials, persistCredentials.
  destruct window; cbn [negb].
  - split; [|split].
    + rewrite lookup_delete_eq. reflexivity.
    + apply delete_insert_eq.
    + intros key Hkey. apply lookup_delete_ne. congruence.
  - repeat split.
Qed.

(** X8: [persistCredentials] writes one key. A second call replaces what
    the first stored, and every other key of [localStorage] keeps its
    value; outside the browser nothing is written at all. *)
Theorem persistCredentials_overwrites
    (JSON_stringify : json -> string) (window : bool)
    (first second : BasicCreds) (ls : gmap string string) :
  persistCredentials JSON_stringify window second
    (persistCredentials JSON_stringify window first ls)
  = persistCredentials JSON_stringify window second ls
  /\ (forall key, key <> CREDS_KEY ->
        persistCredentials JSON_stringify window second ls !! key = ls !! key)
  /\ persistCredentials JSON_stringify false second ls = ls.
Proof.
  unfold persistCredentials. destruct window; cbn [negb].
  - split; [apply insert_insert_eq|]. split; [|reflexivity].
    intros key Hkey. apply lookup_insert_ne. congruence.
  - repeat split.
Qed.

Lemma has_colon_cons (c : Ascii.ascii) (s : string) :
  has_colon (String c s) = false -> c <> ":"%char /\ has_colon s = false.
Proof.
  cbn [has_colon]. intros H. apply orb_false_iff in H. destruct H as [Hc Hs].
  split; [|exact Hs]. intros ->. cbn in Hc. discriminate.
Qed.

(** A text splits at its first colon in one way only. *)
Lemma split_at_first_colon (u1 u2 p1 p2 : string) :
  has_colon u1 = false -> has_colon u2 = false ->
  u1 +:+ String ":" p1 = u2 +:+ String ":" p2 ->
  u1 = u2 /\ p1 = p2.
Proof.
  revert u2. induction u1 as [|c u1 IH]; intros [|c' u2] H1 H2 Heq.
  - rewrite !append_nil in Heq. injection Heq as ->. split; reflexivity.
  - rewrite append_nil, append_cons in Heq. injection Heq as <- _.
    apply has_colon_cons in H2. destruct H2 as [H2 _]. contradiction.
  - rewrite append_nil, append_cons in Heq. injection Heq as -> _.
    apply has_colon_cons in H1. destruct H1 as [H1 _]. contradiction.
  - rewrite !append_cons in Heq. injection Heq as -> Heq.
    apply has_colon_cons in H1, H2. destruct H1 as [_ H1], H2 as [_ H2].
    destruct (IH u2 H1 H2 Heq) as [-> ->]. split; reflexivity.
Qed.

(** X9: the authorization header tells the credentials apart as long as no
    username contains a colon, for an encoder that maps different texts to
    different tokens. *)
Theorem basicAuthHeader_injective (encodeBase64 : string -> string)
    (c1 c2 : BasicCreds) :
  (forall a b, encodeBase64 a = encodeBase64 b -> a = b) ->
  has_colon (username c1) = false ->
  has_colon (username c2) = false ->
  basicAuthHeader encodeBase64 c1 = basicAuthHeader encodeBase64 c2 ->
  c1 = c2.
Proof.
  intros Hinj H1 H2 Heq. unfold basicAuthHeader in Heq.
  rewrite !append_cons, !append_nil in Heq.
  injection Heq as Heq. apply Hinj in Heq.
  destruct (split_at_first_colon _ _ _ _ H1 H2 Heq) as [Hu Hp].
  destruct c1, c2. cbn in *. congruence.
Qed.

Lemma basicAuthHeader_injective_witness :
  let c := {| username := "admin"; password := "a:b" |} in
  c = c.
Proof.
  intros c.
  apply (basicAuthHeader_injective (fun text => text) c c).
  - intros a b H. exact H.
  - reflexivity.
  - reflexivity.
  - reflexivity.
Defined.

(** X10: a colon in the username makes the header ambiguous. Whatever the
    encoder, the user "u:v" with password "p" and the user "u" with
    password "v:p" send the same header. *)
Theorem basicAuthHeader_colon_ambiguity (encodeBase64 : string -> string)
    (u v p : string) :
  basicAuthHeader encodeBase64
    {| username := u +:+ String ":" v; password := p |}
  = basicAuthHeader encodeBase64
      {| username := u; password := v +:+ String ":" p |}.
Proof.
  unfold basicAuthHeader. cbn [username password].
  rewrite !append_cons, !append_nil. do 2 f_equal.
  rewrite append_assoc, append_cons. reflexivity.
Qed.




End ApiMore.

(** ** More on [components/Issues.tsx] *)
Section IssuesMore.
Import JS Issues.

Variable JSON_stringify : json -> string.

(** Toggling leaves the ids alone, so it passes through the filter of
    [deleteIssue]. *)
Lemma filter_toggled (a b : string) (l : list Issue) :
  filter (fun issue => id issue <> a)
    (map (fun issue =>
            if String.eqb (id issue) b
            then {| id := id issue; title := title issue;
                    description := description issue;
                    category := category issue;
                    timestamp := timestamp issue;
                    username := username issue;
                    resolved := negb (resolved issue) |}
            else issue) l)
  = map (fun issue =>
           if String.eqb (id issue) b
           then {| id := id issue; title := title issue;
                   description := description issue;
                   category := category issue;
                   timestamp := timestamp issue;
                   username := username issue;
                   resolved := negb (resolved issue) |}
           else issue)
      (filter (fun issue => id issue <> a) l).
Proof.
  match goal with |- context [map ?g l] => set (f := g) end.
  assert (Hid : forall issue, id (f issue) = id issue).
  { intros issue. unfold f. destruct (String.eqb (id issue) b); reflexivity. }
  induction l as [|issue l IH]; [reflexivity|].
  cbn [map]. rewrite !filter_cons.
  destruct (decide (id issue <> a)) as [Hne|He].
  - rewrite decide_True by (rewrite Hid; exact Hne).
    cbn [map]. rewrite IH. reflexivity.
  - rewrite decide_False by (rewrite Hid; exact He). exact IH.
Qed.

Lemma filter_all {A} (P : A -> Prop) `{forall x, Decision (P x)} (l : list A) :
  (forall x, x ∈ l -> P x) -> filter P l = l.
Proof.
  induction l as [|x l IH]; intros Hall; [reflexivity|].
  rewrite filter_cons_True by (apply Hall; left).
  rewrite IH; [reflexivity|]. intros y Hy. apply Hall. right. exact Hy.
Qed.

(** X12: toggling the same id twice gives back the list of issues, every
    field of every issue as it was, and leaves that list in storage. *)
Theorem toggleResolved_twice (id' : string) (v : view) :
  toggleResolved JSON_stringify id' (toggleResolved JSON_stringify id' v)
  = {| issues := issues v;
       localStorage := saveIssues JSON_stringify (issues v) (localStorage v) |}.
Proof.
  unfold toggleResolved. cbn [issues localStorage]. rewrite List.map_map.
  match goal with |- context [map ?f (issues v)] =>
    assert (Hid : map f (issues v) = issues v) end.
  { rewrite <- (List.map_id (issues v)) at 2. apply List.map_ext.
    intros [i t d c ts u r]. cbn.
    destruct (String.eqb i id') eqn:Hi; cbn; rewrite ?Hi; cbn;
      [rewrite negb_involutive|]; reflexivity. }
  rewrite Hid. f_equal. unfold saveIssues. apply insert_insert_eq.
Qed.

(** X13: [deleteIssue] removes exactly the issues that carry the id. What
    remains are the issues with another id, in their order; the list never
    grows; an id that no issue carries leaves the list as it is; and a
    second deletion of the same id removes nothing more. *)
Theorem deleteIssue_removes (id' : string) (v : view) :
  let v' := deleteIssue JSON_stringify id' v in
  (forall issue, issue ∈ issues v' <-> issue ∈ issues v /\ id issue <> id')
  /\ sublist (issues v') (issues v)
  /\ (length (issues v') <= length (issues v))%nat
  /\ ((forall issue, issue ∈ issues v -> id issue <> id') ->
      issues v' = issues v)
  /\ issues (deleteIssue JSON_stringify id' v') = issues v'.
Proof.
  cbv zeta. unfold deleteIssue. cbn [issues].
  split; [|split; [|split; [|split]]].
  - intros issue. rewrite list_elem_of_filter. tauto.
  - apply sublist_filter.
  - apply length_filter.
  - intros Hall. apply filter_all. exact Hall.
  - apply filter_all. intros issue Hin.
    apply list_elem_of_filter in Hin. tauto.
Qed.

(** X14: deleting and toggling commute, for any two ids: the view, list
    and storage, is the same whichever is done first. *)
Theorem deleteIssue_toggleResolved_commute (a b : string) (v : view) :
  deleteIssue JSON_stringify a (toggleResolved JSON_stringify b v)
  = toggleResolved JSON_stringify b (deleteIssue JSON_stringify a v).
Proof.
  unfold deleteIssue, toggleResolved. cbn [issues localStorage].
  rewrite filter_toggled. f_equal. unfold saveIssues.
  rewrite !insert_insert_eq. reflexivity.
Qed.

(** X15: the counts shown by the filter add up. Every issue is either in
    the resolved or in the unresolved view, never in both; the "all" view
    is the whole list; each view lists issues in the order of the list. *)
Theorem filteredIssues_partition (l : list Issue) :
  (length (filteredIssues FilterResolved l)
   + length (filteredIssues FilterUnresolved l) = length l)%nat
  /\ filteredIssues FilterAll l = l
  /\ (forall issue, In issue (filteredIssues FilterResolved l) <->
                    In issue l /\ resolved issue = true)
  /\ (forall issue, In issue (filteredIssues FilterUnresolved l) <->
                    In issue l /\ resolved issue = false)
  /\ (forall f, sublist (filteredIssues f l) l).
Proof.
  unfold filteredIssues. split; [|split; [|split; [|split]]].
  - induction l as [|issue l IH]; [reflexivity|].
    cbn [List.filter]. destruct (resolved issue); cbn [negb length]; lia.
  - induction l as [|issue l IH]; [reflexivity|].
    cbn [List.filter]. rewrite IH. reflexivity.
  - intros issue. rewrite List.filter_In. reflexivity.
  - intros issue. rewrite List.filter_In, negb_true_iff. reflexivity.
  - intros f. induction l as [|issue l IH]; [constructor|].
    cbn [List.filter].
    match goal with |- context [if ?c then _ else _] => destruct c end;
      [apply sublist_skip | apply sublist_cons]; exact IH.
Qed.

Variable JSON_parse : string -> option json.

Lemma getIssues_stored (stored : string) (value : json) (ls : gmap string string) :
  ls !! LOCAL_STORAGE_KEY = Some stored ->
  JSON_parse EmptyString = None ->
  JSON_parse stored = Some value ->
  getIssues JSON_parse true ls = value.
Proof.
  intros Hls Hempty Hparse. unfold getIssues. cbn [negb]. rewrite Hls.
  destruct (String.eqb_spec stored EmptyString) as [->|_].
  - congruence.
  - rewrite Hparse. reflexivity.
Qed.

(** X16: list and storage stay in step. After [toggleResolved] and after
    [deleteIssue] the text under the issues key is the serialization of
    the list on display, so that [getIssues] reads that list back, for an
    engine whose parser undoes the serialization of it and rejects the
    empty text. *)
Theorem view_storage_in_step (id' : string) (v : view) :
  let shown w := JArr (map issue_object (issues w)) in
  let toggled := toggleResolved JSON_stringify id' v in
  let deleted := deleteIssue JSON_stringify id' v in
  localStorage toggled !! LOCAL_STORAGE_KEY = Some (JSON_stringify (shown toggled))
  /\ localStorage deleted !! LOCAL_STORAGE_KEY = Some (JSON_stringify (shown deleted))
  /\ (JSON_parse EmptyString = None ->
      JSON_parse (JSON_stringify (shown toggled)) = Some (shown toggled) ->
      getIssues JSON_parse true (localStorage toggled) = shown toggled)
  /\ (JSON_parse EmptyString = None ->
      JSON_parse (JSON_stringify (shown deleted)) = Some (shown deleted) ->
      getIssues JSON_parse true (localStorage deleted) = shown deleted).
Proof.
  cbv zeta.
  assert (Ht : localStorage (toggleResolved JSON_stringify id' v) !! LOCAL_STORAGE_KEY
               = Some (JSON_stringify
                         (JArr (map issue_object
                                  (issues (toggleResolved JSON_stringify id' v)))))).
  { unfold toggleResolved, saveIssues. cbn [issues localStorage].
    apply lookup_insert_eq. }
  assert (Hd : localStorage (deleteIssue JSON_stringify id' v) !! LOCAL_STORAGE_KEY
               = Some (JSON_stringify
                         (JArr (map issue_object
                                  (issues (deleteIssue JSON_stringify id' v)))))).
  { unfold deleteIssue, saveIssues. cbn [issues localStorage].
    apply lookup_insert_eq. }
  split; [exact Ht|]. split; [exact Hd|]. split.
  - intros Hempty Hparse. eapply getIssues_stored; eassumption.
  - intros Hempty Hparse. eapply getIssues_stored; eassumption.
Qed.

Variable trim : string -> string.

(** X17: reporting an issue. A title that trims to nothing changes
    neither the form nor the storage. Otherwise, when what is stored reads
    back as an array, the new issue, unresolved, is put in front of the
    stored ones, no other key is written and the form is reset; when what
    is stored reads back as anything else, the handler throws with the
    storage untouched and the form left in its submitting state. *)
Theorem handleSubmit_reports (uuid now user : string) (f : form)
    (ls : gmap string string) :
  let out := handleSubmit JSON_stringify JSON_parse trim uuid now user f ls in
  let newIssue :=
    {| id := uuid; title := trim (form_title f);
       description := trim (form_description f);
       category := form_category f; timestamp := now; username := user;
       resolved := false |} in
  (trim (form_title f) = EmptyString -> out = (f, ls, false))
  /\ (forall items,
        trim (form_title f) <> EmptyString ->
        getIssues JSON_parse true ls = JArr items ->
        out.1.2 !! LOCAL_STORAGE_KEY
        = Some (JSON_stringify (JArr (issue_object newIssue :: items)))
        /\ (forall key, key <> LOCAL_STORAGE_KEY -> out.1.2 !! key = ls !! key)
        /\ out.2 = false
        /\ form_title out.1.1 = EmptyString
        /\ submitting out.1.1 = false
        /\ success out.1.1 = true)
  /\ (trim (form_title f) <> EmptyString ->
      ls !! LOCAL_STORAGE_KEY = None ->
      out.1.2 !! LOCAL_STORAGE_KEY
      = Some (JSON_stringify (JArr [issue_object newIssue])))
  /\ (trim (form_title f) <> EmptyString ->
      (forall items, getIssues JSON_parse true ls <> JArr items) ->
      out.1.2 = ls /\ out.2 = true /\ submitting out.1.1 = true).
Proof.
  cbv zeta. unfold handleSubmit. split; [|split; [|split]].
  - intros ->. reflexivity.
  - intros items Hne Hget. rewrite eqb_empty_false by exact Hne. rewrite Hget.
    cbn. split; [apply lookup_insert_eq|]. split; [|repeat split].
    intros key Hkey. apply lookup_insert_ne. congruence.
  - intros Hne Hnone. rewrite eqb_empty_false by exact Hne.
    unfold getIssues. cbn [negb]. rewrite Hnone. cbn. apply lookup_insert_eq.
  - intros Hne Hnot. rewrite eqb_empty_false by exact Hne.
    destruct (getIssues JSON_parse true ls) as [| | | |items|] eqn:Hget;
      try (repeat split; fail).
    exfalso. apply (Hnot items). reflexivity.
Qed.

End IssuesMore.

Lemma view_storage_in_step_witness :
  let v := {| Issues.issues :=
                [ {| Issues.id := "a1"; Issues.title := "Drip";
                     Issues.description := EmptyString;
                     Issues.category := Issues.leak;
                     Issues.timestamp := "2025-01-01T00:00:00.000Z";
                     Issues.username := "admin";
                     Issues.resolved := false |} ];
              Issues.localStorage := ∅ |} in
  let stringify := fun _ : JS.json => "[]"%string in
  let parse := fun text : string =>
    if String.eqb text "[]" then Some (JS.JArr []) else None in
  Issues.getIssues parse true
    (Issues.localStorage (Issues.deleteIssue stringify "a1" v))
  = JS.JArr [].
Proof.
  intros v stringify parse.
  pose proof (view_storage_in_step stringify parse "a1" v) as (_ & _ & _ & H).
  apply H; reflexivity.
Defined.

Lemma handleSubmit_reports_witness :
  let f := {| Issues.form_title := "Drip"; Issues.form_description := "slow";
              Issues.form_category := Issues.leak;
              Issues.submitting := false; Issues.success := false |} in
  let stringify := fun _ : JS.json => "[...]"%string in
  let parse := fun _ : string => @None JS.json in
  (Issues.handleSubmit stringify parse (fun s => s) "a1" "now" "admin" f ∅).1.2
    !! Issues.LOCAL_STORAGE_KEY
  = Some "[...]"%string.
Proof.
  intros f stringify parse.
  pose proof (handleSubmit_reports stringify parse (fun s => s)
                "a1" "now" "admin" f ∅) as (_ & _ & H & _).
  apply H; [discriminate|reflexivity].
Defined.

(** ** The login card *)
Section LoginCardFacts.
Import LoginCard.

(** X18: the user type round-trips through storage, and whatever the
    storage holds [loadUserType] answers "admin" only for the stored text
    "admin" in the browser; any other content, a missing key and the
    server side give "user". *)
Theorem loadUserType_saveUserType (t : UserType) (window : bool)
    (ls : gmap string string) :
  loadUserType true (saveUserType t ls) = t
  /\ (loadUserType window ls = admin <->
      window = true /\ ls !! USER_TYPE_STORAGE_KEY = Some "admin"%string)
  /\ (forall key, key <> USER_TYPE_STORAGE_KEY ->
                  saveUserType t ls !! key = ls !! key).
Proof.
  split; [|split].
  - unfold loadUserType, saveUserType. cbn [negb].
    rewrite lookup_insert_eq. destruct t; reflexivity.
  - unfold loadUserType. destruct window; cbn [negb].
    + destruct (ls !! USER_TYPE_STORAGE_KEY) as [stored|].
      * destruct (String.eqb_spec stored "admin") as [->|Hne].
        { split; [intros _; split; reflexivity|reflexivity]. }
        split.
        { destruct (String.eqb stored "user"); discriminate. }
        { intros [_ [= ->]]. contradiction. }
      * split; [discriminate|]. intros [_ H]. discriminate.
    + split; [discriminate|]. intros [H _]. discriminate.
  - intros key Hkey. unfold saveUserType. apply lookup_insert_ne. congruence.
Qed.

(** X19: the card submits nothing half-filled. With an empty username or
    an empty password [handleSubmit] calls nothing and stores nothing;
    otherwise it stores the chosen user type, which [loadUserType] then
    returns, and calls [onRegister] exactly in register mode when one was
    given, [onSubmit] in every other case, with the values typed in. *)
Theorem handleSubmit_guard (username password : string) (userType : UserType)
    (mode : Mode) (has_onRegister : bool) (ls : gmap string string) :
  let out := handleSubmit username password userType mode has_onRegister ls in
  (username = EmptyString \/ password = EmptyString -> out = (Nothing, ls))
  /\ (username <> EmptyString -> password <> EmptyString ->
      loadUserType true out.2 = userType
      /\ out.1 = (match mode with
                  | register =>
                      if has_onRegister
                      then OnRegister username password userType
                      else OnSubmit username password userType
                  | login => OnSubmit username password userType
                  end))
  /\ (out.1 = Nothing <-> username = EmptyString \/ password = EmptyString).
Proof.
  cbv zeta. unfold handleSubmit.
  destruct (String.eqb_spec username EmptyString) as [->|Hu]; cbn [orb].
  { split; [reflexivity|]. split; [intros H; contradiction|].
    split; [intros _; left|]; reflexivity. }
  destruct (String.eqb_spec password EmptyString) as [->|Hp].
  { split; [reflexivity|]. split; [intros _ H; contradiction|].
    split; [intros _; right|]; reflexivity. }
  split; [intros [H|H]; contradiction|]. split.
  - intros _ _. split.
    + destruct mode; [|destruct has_onRegister]; cbn;
        unfold loadUserType, saveUserType; cbn [negb];
        rewrite lookup_insert_eq; destruct userType; reflexivity.
    + destruct mode; [|destruct has_onRegister]; reflexivity.
  - split; [|intros [H|H]; contradiction].
    destruct mode; [|destruct has_onRegister]; discriminate.
Qed.

Lemma handleSubmit_guard_witness :
  (handleSubmit "admin" "strongpass" admin register true ∅).1
  = OnRegister "admin" "strongpass" admin.
Proof.
  pose proof (handleSubmit_guard "admin" "strongpass" admin register true ∅)
    as (_ & H & _).
  apply H; discriminate.
Defined.

End LoginCardFacts.

(** ** The page's session *)
Section PageFacts.
Import JS Api Page.

Variable JSON_stringify : json -> string.
Variable JSON_parse : string -> option json.

Lemma load_after_clear (ls : gmap string string) :
  loadCredentials JSON_parse true (clearCredentials true ls) = None.
Proof.
  unfold loadCredentials, clearCredentials. cbn [negb].
  rewrite lookup_delete_eq. reflexivity.
Qed.

(** X20: signing out ends the session for good. After [logout] the page
    has no credentials, no metrics, no history and no error, the stored
    credentials are gone, and mounting the page again finds none. *)
Theorem logout_ends_session (h : Home) :
  creds (logout h) = None
  /\ state (logout h) = initialState
  /\ error (logout h) = None
  /\ loading (logout h) = loading h
  /\ localStorage (logout h) !! CREDS_KEY = None
  /\ creds (mount JSON_parse (logout h)) = None.
Proof.
  repeat split.
  - cbn. apply lookup_delete_eq.
  - cbn [mount creds logout localStorage]. apply load_after_clear.
Qed.

(** X21: a refresh answered with status 401 signs the user out. Whatever
    the page showed, afterwards it has no credentials and no data, the
    stored credentials are removed so that a reload does not restore them,
    and the error reads "Session expired. Please sign in again."; the
    spinner, if it was asked for, is off again. *)
Theorem refresh_unauthorized_signs_out (current : json) (showSpinner : bool)
    (message : string) (h : Home) :
  let h' := refresh (Some current) showSpinner (inl (ApiError message 401)) h in
  creds h' = None
  /\ state h' = initialState
  /\ error h' = Some "Session expired. Please sign in again."%string
  /\ localStorage h' !! CREDS_KEY = None
  /\ creds (mount JSON_parse h') = None
  /\ loading h' = (if showSpinner then false else loading h).
Proof.
  cbv zeta. destruct showSpinner; cbn.
  - repeat split; try apply lookup_delete_eq. apply load_after_clear.
  - repeat split; try apply lookup_delete_eq. apply load_after_clear.
Qed.

(** X22: any other failure of a refresh keeps the session and the data on
    display. The credentials, the metrics and history shown and the
    storage stay as they were; only the error is set, to the failure's
    message, or to "Unable to refresh data" when what was thrown is no
    error. Without credentials [refresh] does nothing at all. *)
Theorem refresh_failure_keeps_data (current : json) (showSpinner : bool)
    (e : thrown) (fetched : thrown + json * json) (h : Home) :
  is_unauthorized e = false ->
  let h' := refresh (Some current) showSpinner (inl e) h in
  creds h' = creds h
  /\ state h' = state h
  /\ localStorage h' = localStorage h
  /\ error h' = Some (message_of "Unable to refresh data" e)
  /\ refresh None showSpinner fetched h = h.
Proof.
  intros He. cbv zeta. unfold refresh.
  destruct e as [message code| |]; cbn in He; rewrite ?He;
    destruct showSpinner; repeat split.
Qed.

Lemma refresh_failure_keeps_data_witness :
  let h := {| creds := None; state := initialState; loading := false;
              error := None; localStorage := ∅ |} in
  error (refresh (Some JNull) true (inl (ApiError "Server error" 500)) h)
  = Some "Server error"%string.
Proof.
  intros h.
  apply (refresh_failure_keeps_data JNull true (ApiError "Server error" 500)
           (inl NotAnError) h).
  reflexivity.
Defined.

(** X23: a failed login leaves no trace. When the login request fails
    nothing is written to storage, the credentials and the data of the
    page stay as they were, and the error is the failure's message, or
    "Login failed" when what was thrown is no error. *)
Theorem handleLogin_failure (username password : string) (e : thrown)
    (fetched : thrown + json * json) (h : Home) :
  let h' := handleLogin JSON_stringify username password (Some e) fetched h in
  localStorage h' = localStorage h
  /\ creds h' = creds h
  /\ state h' = state h
  /\ error h' = Some (message_of "Login failed" e)
  /\ loading h' = false.
Proof. cbv zeta. destruct e; repeat split. Qed.

(** X24: a successful login survives a reload. When the login and the
    first refresh succeed, the page holds the credentials typed in and the
    fetched data, shows no error, and a page mounted later on the same
    storage gets the same credentials back, for an engine whose parser
    undoes the serialization of the credentials and rejects the empty
    text. *)
Theorem handleLogin_success_restored (username password : string)
    (m hist : json) (h fresh : Home) :
  JSON_parse EmptyString = None ->
  JSON_parse (JSON_stringify
                (creds_object {| Api.username := username; Api.password := password |}))
  = Some (creds_object {| Api.username := username; Api.password := password |}) ->
  username <> EmptyString ->
  password <> EmptyString ->
  let h' := handleLogin JSON_stringify username password None (inr (m, hist)) h in
  creds h'
  = Some (creds_object {| Api.username := username; Api.password := password |})
  /\ state h' = {| metrics := Some m; history := hist |}
  /\ error h' = None
  /\ loading h' = false
  /\ (localStorage fresh = localStorage h' ->
      creds (mount JSON_parse fresh) = creds h').
Proof.
  intros Hempty Hparse Hu Hp. cbv zeta. repeat split.
  intros Hls. cbn [mount creds]. rewrite Hls. cbn.
  apply (loadCredentials_persist JSON_stringify JSON_parse
           {| Api.username := username; Api.password := password |});
    assumption.
Qed.

(** X25: a login that the first refresh answers with 401 is undone. The
    credentials written a moment before are removed from storage again,
    the page holds none, and the error reads "Session expired. Please sign
    in again.". *)
Theorem handleLogin_then_unauthorized (username password message : string)
    (h : Home) :
  let h' := handleLogin JSON_stringify username password None
              (inl (ApiError message 401)) h in
  creds h' = None
  /\ localStorage h' !! CREDS_KEY = None
  /\ creds (mount JSON_parse h') = None
  /\ state h' = initialState
  /\ error h' = Some "Session expired. Please sign in again."%string
  /\ loading h' = false.
Proof.
  cbv zeta. cbn. repeat split; try apply lookup_delete_eq.
  apply load_after_clear.
Qed.

(** X26: the spinner never sticks. [handleLogin] always ends with
    [loading] off, whatever the requests did; a [refresh] with the spinner
    ends with it off as soon as there are credentials, and a [refresh]
    without the spinner leaves [loading] as it was. *)
Theorem loading_always_released (username password : string)
    (logged_in : option thrown) (current : option json)
    (fetched : thrown + json * json) (h : Home) :
  loading (handleLogin JSON_stringify username password logged_in fetched h) = false
  /\ loading (refresh current true fetched h)
     = match current with Some _ => false | None => loading h end
  /\ loading (refresh current false fetched h) = loading h.
Proof.
  split; [reflexivity|]. unfold refresh. split.
  - destruct current; reflexivity.
  - destruct current; [|reflexivity].
    destruct fetched as [[message code| |]|[m hist]]; try reflexivity.
    cbn. destruct (code =? 401); reflexivity.
Qed.

End PageFacts.

Lemma handleLogin_success_restored_witness :
  let h := {| Page.creds := None; Page.state := Page.initialState;
              Page.loading := false; Page.error := None;
              Page.localStorage := ∅ |} in
  Page.error
    (Page.handleLogin FlatJSON.stringify "admin" "strongpass" None
       (inr (JS.JNull, JS.JArr [])) h)
  = None.
Proof.
  intros h.
  apply (handleLogin_success_restored FlatJSON.stringify FlatJSON.parse
           "admin" "strongpass" JS.JNull (JS.JArr []) h h).
  - reflexivity.
  - vm_compute. reflexivity.
  - discriminate.
  - discriminate.
Defined.
